(** * xtrude: tile pipeline, tile cache and tile encoders

    Shallow embedding of [xtrude/xtrude.py] (class [TerrainMap] and the
    module functions [coarsen] and [reproject]).

    Conventions of the embedding.
    - Python and numpy floating-point numbers are modelled by [fval]: exact
      rationals extended with the two infinities and NaN.  Arithmetic is the
      exact one; rounding of binary floating point is not modelled.
    - A Python exception is a value of [exn]; a computation that may raise
      returns [exn + A].
    - Methods of [TerrainMap] that read and write attributes of [self] are
      state-passing functions over the record [TerrainMap].
    - [with self.debug_output:] is modelled by [with_debug_output]: an
      exception that leaves the block is swallowed when the [__exit__] of
      the context manager answers true, and the method then returns
      [None]; otherwise it leaves the method.  The widget [Output()] that
      [plot] takes by default belongs to the libraries: in an IPython
      kernel it swallows, in plain Python it does not.
    - The libraries the module calls (mercantile, xarray selection and
      block-averaging, rioxarray reprojection) are operations of the class
      [Libs]; they are not part of the module and stay abstract. *)

From Stdlib Require Import ZArith QArith Qround Qabs Qminmax Lia Lqa.
From Stdlib Require Import Ascii String.
From stdpp Require Import base option list strings gmap relations.

Local Open Scope Z_scope.

(** ** Floating-point values *)

Inductive fval : Type :=
| Fin (q : Q)
| PInf
| NInf
| NaN.

Definition fneg (a : fval) : fval :=
  match a with
  | Fin q => Fin (- q)%Q
  | PInf => NInf
  | NInf => PInf
  | NaN => NaN
  end.

Definition fadd (a b : fval) : fval :=
  match a, b with
  | NaN, _ | _, NaN => NaN
  | Fin p, Fin q => Fin (p + q)%Q
  | PInf, NInf | NInf, PInf => NaN
  | PInf, _ | _, PInf => PInf
  | NInf, _ | _, NInf => NInf
  end.

Definition fsub (a b : fval) : fval := fadd a (fneg b).

(** [inf_signed c] is the infinity of the sign given by the comparison
    [c] of a finite operand with zero, and NaN for a zero operand. *)
Definition inf_signed (c : comparison) (pos : fval) : fval :=
  match c with
  | Gt => pos
  | Lt => fneg pos
  | Eq => NaN
  end.

Definition fmul (a b : fval) : fval :=
  match a, b with
  | NaN, _ | _, NaN => NaN
  | Fin p, Fin q => Fin (p * q)%Q
  | Fin p, PInf | PInf, Fin p => inf_signed (p ?= 0)%Q PInf
  | Fin p, NInf | NInf, Fin p => inf_signed (p ?= 0)%Q NInf
  | PInf, PInf | NInf, NInf => PInf
  | PInf, NInf | NInf, PInf => NaN
  end.

(** numpy's [/] on floating-point operands: a zero divisor raises nothing,
    it yields an infinity, or NaN for [0 / 0] (the zero of [x - x] is
    positive). *)
Definition fdiv (a b : fval) : fval :=
  match a, b with
  | NaN, _ | _, NaN => NaN
  | Fin p, Fin q =>
      if Qeq_bool q 0 then inf_signed (p ?= 0)%Q PInf else Fin (p / q)%Q
  | Fin _, PInf | Fin _, NInf => Fin 0
  | PInf, Fin q => if Qle_bool 0 q then PInf else NInf
  | NInf, Fin q => if Qle_bool 0 q then NInf else PInf
  | _, _ => NaN
  end.

(** [//] and [%] with a positive integer constant on the right, the only
    use the module makes of them.  An infinite or NaN left operand gives
    NaN. *)
Definition ffloordiv (a : fval) (k : Z) : fval :=
  match a with
  | Fin q => Fin (inject_Z (Qfloor (q / inject_Z k)))
  | _ => NaN
  end.

Definition fmod (a : fval) (k : Z) : fval :=
  match a with
  | Fin q => Fin (q - inject_Z k * inject_Z (Qfloor (q / inject_Z k)))%Q
  | _ => NaN
  end.

Definition Qtrunc (q : Q) : Z :=
  if Qle_bool 0 q then Qfloor q else Qceiling q.

(** Conversion to [np.uint8] on assignment into a [uint8] array: the
    fractional part is dropped.  Outside [0, 256) the C conversion numpy
    relies on is unspecified; it is taken as on the usual platforms, where
    the value goes through a 32-bit integer whose low byte is kept, and
    a value beyond the 32-bit range or a non-finite one gives [0]. *)
Definition to_uint8 (a : fval) : Z :=
  match a with
  | Fin q =>
      let t := Qtrunc q in
      if decide (- 2 ^ 31 <= t < 2 ^ 31) then t mod 256 else 0
  | _ => 0
  end.

Definition of_int (n : Z) : fval := Fin (inject_Z n).

(** ** Elevation packing ([terrain_handler]) and the decoder ([_start]) *)

(** One pixel of lines 155-159 of [terrain_handler]:
    [data = (data + self.offset) * self.factor], then the channels
    [rgb[:, :, 2] = data % 256], [rgb[:, :, 1] = (data // 256) % 256],
    [rgb[:, :, 0] = (data // (256 * 256)) % 256].  The result is
    (red, green, blue).  The sum and the product of line 155 are the
    exact ones. *)
Definition encode_pixel (factor offset : Z) (e : fval) : Z * Z * Z :=
  let data := fmul (fadd e (of_int offset)) (of_int factor) in
  let blue := to_uint8 (fmod data 256) in
  let green := to_uint8 (fmod (ffloordiv data 256) 256) in
  let red := to_uint8 (fmod (ffloordiv data (256 * 256)) 256) in
  (red, green, blue).

(** Lines 157-159 alone: the channels of a scaled value. *)
Definition pack_scaled (data : fval) : Z * Z * Z :=
  (to_uint8 (fmod (ffloordiv data (256 * 256)) 256),
   to_uint8 (fmod (ffloordiv data 256) 256),
   to_uint8 (fmod data 256)).

(** The [elevation_decoder] dictionary built by [_start]. *)
Record ElevationDecoder : Type := mkDecoder {
  rScaler : Q;
  gScaler : Q;
  bScaler : Q;
  dec_offset : Q
}.

Definition elevation_decoder (factor offset : Z) : ElevationDecoder :=
  {| rScaler := 65536 / inject_Z factor;
     gScaler := 256 / inject_Z factor;
     bScaler := 1 / inject_Z factor;
     dec_offset := - inject_Z offset |}.

(** How the terrain layer applies the dictionary to a pixel. *)
Definition decode_pixel (d : ElevationDecoder) (rgb : Z * Z * Z) : Q :=
  let '(r, g, b) := rgb in
  (inject_Z r * rScaler d + inject_Z g * gScaler d
   + inject_Z b * bScaler d + dec_offset d)%Q.

(** ** Exceptions and fallible computations *)

Inductive exn : Type :=
| ValueError (msg : string)
| ZeroDivisionError
| AttributeError (attr : string)
| KeyError
| TypeError (msg : string).

Abbreviation result A := (exn + A)%type.

Definition bindR {A B : Type} (c : result A) (k : A -> result B) : result B :=
  match c with
  | inl e => inl e
  | inr a => k a
  end.

Notation "'ok' x <- c ; k" := (bindR c (fun x => k))
  (at level 10, x pattern, c at level 100, k at level 200, only parsing).

(** A context manager, by what its [__exit__] answers when an exception
    leaves its block: [true] swallows the exception. *)
Record ContextManager : Type := mkContextManager {
  suppresses : exn -> bool
}.

(** How a method whose body is one [with] block ends: with the value of
    its [return], with [None] after a swallowed exception, or with the
    exception. *)
Definition leave_block {A : Type} (cm : ContextManager) (r : result A)
  : result (option A) :=
  match r with
  | inr a => inr (Some a)
  | inl e => if suppresses cm e then inr None else inl e
  end.

(** The same for a method without [return], which ends with [None]
    either way. *)
Definition leave_block_unit (cm : ContextManager) (r : result unit)
  : result unit :=
  match r with
  | inr u => inr u
  | inl e => if suppresses cm e then inr tt else inl e
  end.

(** Python's [a // b] on integers and [a / b] of a float by an integer. *)
Definition py_floordiv (a b : Z) : result Z :=
  if decide (b = 0) then inl ZeroDivisionError else inr (a / b).

Definition py_truediv (a : Q) (b : Z) : result Q :=
  if decide (b = 0) then inl ZeroDivisionError else inr (a / inject_Z b)%Q.

(** ** Strings *)

Definition chars (s : string) : list ascii := list_ascii_of_string s.

(** [s[:i]] for a Python index [i], negative indices counting from the
    end. *)
Definition py_slice_to (l : list ascii) (i : Z) : list ascii :=
  if decide (i < 0)
  then take (Z.to_nat (Z.of_nat (length l) + i)) l
  else take (Z.to_nat i) l.

Fixpoint is_prefix (p l : list ascii) : bool :=
  match p, l with
  | [], _ => true
  | _ :: _, [] => false
  | a :: p', b :: l' => if decide (a = b) then is_prefix p' l' else false
  end.

Definition endswith (l suffix : list ascii) : bool :=
  is_prefix (reverse suffix) (reverse l).

(** [l.rfind(p)]: the highest index at which [p] occurs in [l], or [-1]. *)
Fixpoint rfind_from (p l : list ascii) (i : Z) : Z :=
  match l with
  | [] => if is_prefix p [] then i else -1
  | _ :: l' =>
      let later := rfind_from p l' (i + 1) in
      if decide (later = -1)
      then (if is_prefix p l then i else -1)
      else later
  end.

Definition rfind (l p : list ascii) : Z := rfind_from p l 0.

(** [p in l]. *)
Definition contains (l p : list ascii) : bool :=
  bool_decide (rfind l p <> -1).

(** [l.split(sep)] for a one-character separator. *)
Fixpoint split_on (sep : ascii) (l : list ascii) : list (list ascii) :=
  match l with
  | [] => [[]]
  | c :: l' =>
      if decide (c = sep) then [] :: split_on sep l'
      else match split_on sep l' with
           | [] => [[c]]
           | w :: ws => (c :: w) :: ws
           end
  end.

(** [parts[-3:]]. *)
Definition last3 {A : Type} (l : list A) : list A :=
  drop (length l - 3)%nat l.

(** *** [int(s)] on a string

    Base ten, for ASCII input: surrounding white space (space, tab,
    line feed, vertical tab, form feed, carriage return) is dropped, one
    sign is allowed, and the digits may be grouped by single
    underscores. *)

Definition is_space (c : ascii) : bool :=
  let n := nat_of_ascii c in
  bool_decide (n = 32 \/ 9 <= n <= 13)%nat.

Definition digit_of (c : ascii) : option Z :=
  let n := nat_of_ascii c in
  if bool_decide (48 <= n <= 57)%nat then Some (Z.of_nat n - 48) else None.

Fixpoint lstrip (l : list ascii) : list ascii :=
  match l with
  | c :: l' => if is_space c then lstrip l' else l
  | [] => []
  end.

Definition strip (l : list ascii) : list ascii :=
  reverse (lstrip (reverse (lstrip l))).

Fixpoint parse_digits (l : list ascii) (acc : Z) (after_digit : bool)
  : option Z :=
  match l with
  | [] => if after_digit then Some acc else None
  | c :: l' =>
      match digit_of c with
      | Some d => parse_digits l' (10 * acc + d) true
      | None =>
          if decide (c = "_"%char)
          then (if after_digit then parse_digits l' acc false else None)
          else None
      end
  end.

Definition int_of_chars (l : list ascii) : option Z :=
  match strip l with
  | c :: l' =>
      if decide (c = "-"%char) then Z.opp <$> parse_digits l' 0 false
      else if decide (c = "+"%char) then parse_digits l' 0 false
      else parse_digits (c :: l') 0 false
  | [] => None
  end.

Definition invalid_literal : exn :=
  ValueError "invalid literal for int() with base 10".

Definition py_int (l : list ascii) : result Z :=
  match int_of_chars l with
  | Some n => inr n
  | None => inl invalid_literal
  end.

(** ** The source grid *)

(** A two-dimensional [xarray.DataArray]: the names of its two
    dimensions in array order, the coordinate of each, and the values
    as a list of rows along the first dimension. *)
Record DataArray : Type := mkDataArray {
  da_dims : string * string;
  da_coord0 : list Q;
  da_coord1 : list Q;
  da_values : list (list fval)
}.

(** [array.shape]. *)
Definition da_shape (a : DataArray) : Z * Z :=
  (Z.of_nat (length (da_coord0 a)), Z.of_nat (length (da_coord1 a))).

Definition rename_error : exn :=
  ValueError "cannot rename: not a dimension of the array".

Definition rename_conflict : exn :=
  ValueError "the new name conflicts with an existing one".

(** [da.rename(names)]: every key has to name a dimension of the array;
    the dimensions are renamed at once, and two dimensions must not end
    up with one name. *)
Definition rename (names : gmap string string) (a : DataArray)
  : result DataArray :=
  let '(d0, d1) := da_dims a in
  if decide (dom names ⊆ ({[ d0; d1 ]} : gset string))
  then
    if decide (default d0 (names !! d0) = default d1 (names !! d1))
    then inl rename_conflict
    else inr {| da_dims := (default d0 (names !! d0), default d1 (names !! d1));
                da_coord0 := da_coord0 a;
                da_coord1 := da_coord1 a;
                da_values := da_values a |}
  else inl rename_error.

(** [da.<name>.values]. *)
Definition coord_values (name : string) (a : DataArray) : result (list Q) :=
  let '(d0, d1) := da_dims a in
  if decide (name = d0) then inr (da_coord0 a)
  else if decide (name = d1) then inr (da_coord1 a)
  else inl (AttributeError name).

(** [da.sel(<name>=slice(None, None, -1))]: the array read backwards
    along the dimension [name]. *)
Definition sel_reversed (name : string) (a : DataArray) : result DataArray :=
  let '(d0, d1) := da_dims a in
  if decide (name = d0)
  then inr {| da_dims := da_dims a;
              da_coord0 := reverse (da_coord0 a);
              da_coord1 := da_coord1 a;
              da_values := reverse (da_values a) |}
  else if decide (name = d1)
  then inr {| da_dims := da_dims a;
              da_coord0 := da_coord0 a;
              da_coord1 := reverse (da_coord1 a);
              da_values := map reverse (da_values a) |}
  else inl KeyError.

(** [np.diff]. *)
Definition np_diff (l : list Q) : list Q :=
  zip_with (fun a b => (b - a)%Q) l (tail l).

(** [np.any(v >= 0)]. *)
Definition any_nonneg (l : list Q) : bool := existsb (Qle_bool 0) l.

Definition empty_reduction : exn :=
  ValueError "zero-size array to reduction operation which has no identity".

(** [v.min()] and [v.max()] of a one-dimensional array. *)
Definition np_min (l : list Q) : result Q :=
  match l with
  | [] => inl empty_reduction
  | q :: l' => inr (foldl Qmin q l')
  end.

Definition np_max (l : list Q) : result Q :=
  match l with
  | [] => inl empty_reduction
  | q :: l' => inr (foldl Qmax q l')
  end.

(** ** The object [TerrainMap] *)

Abbreviation Raster := (list (list fval)).
Abbreviation Image := (list (list (Z * Z * Z))).

(** A colormap is applied value by value and yields red, green, blue and
    alpha. *)
Definition Colormap : Type := fval -> fval * fval * fval * fval.

Abbreviation TileKey := (Z * Z * Z)%type.

Inductive handler_id : Type := TerrainHandler | SurfaceHandler.

(** What the object does to its environment, in the order it does it.
    [PipelineRun], [ReduceMin] and [ReduceMax] record the entry into the
    tile pipeline of [get_tile] and the calls [da.min()] and [da.max()];
    they are history, not attributes of the Python object. *)
Inductive event : Type :=
| EnsureFuture (coroutine : string)
| StartServer (port : Z) (handler : handler_id)
| PipelineRun (key : TileKey)
| ReduceMin
| ReduceMax.

(** [pdk.Layer("TerrainLayer", ...)]. *)
Record Layer : Type := mkLayer {
  l_elevation_decoder : option ElevationDecoder;
  l_elevation_data : option (list ascii);
  l_texture : option (list ascii)
}.

Record TerrainMap : Type := mkTerrainMap {
  da : DataArray;
  window_url : list ascii;
  tile_width : Z;
  factor : Z;
  offset : Z;
  vmin : option fval;
  vmax : option fval;
  surface_url : option (list ascii);
  colormap : option Colormap;
  tiles : gmap TileKey Raster;
  x_left : Q;
  x_right : Q;
  y_lower : Q;
  y_upper : Q;
  dx : Q;
  dy : Q;
  l : Layer;
  base_url : option (list ascii);
  host : option (list ascii);
  trace : list event;
  debug_output : ContextManager
}.

Definition set_tiles (t : gmap TileKey Raster) (s : TerrainMap) : TerrainMap :=
  mkTerrainMap (da s) (window_url s) (tile_width s) (factor s) (offset s)
    (vmin s) (vmax s) (surface_url s) (colormap s) t
    (x_left s) (x_right s) (y_lower s) (y_upper s) (dx s) (dy s)
    (l s) (base_url s) (host s) (trace s) (debug_output s).

Definition set_vmin (v : option fval) (s : TerrainMap) : TerrainMap :=
  mkTerrainMap (da s) (window_url s) (tile_width s) (factor s) (offset s)
    v (vmax s) (surface_url s) (colormap s) (tiles s)
    (x_left s) (x_right s) (y_lower s) (y_upper s) (dx s) (dy s)
    (l s) (base_url s) (host s) (trace s) (debug_output s).

Definition set_vmax (v : option fval) (s : TerrainMap) : TerrainMap :=
  mkTerrainMap (da s) (window_url s) (tile_width s) (factor s) (offset s)
    (vmin s) v (surface_url s) (colormap s) (tiles s)
    (x_left s) (x_right s) (y_lower s) (y_upper s) (dx s) (dy s)
    (l s) (base_url s) (host s) (trace s) (debug_output s).

Definition set_window_url (u : list ascii) (s : TerrainMap) : TerrainMap :=
  mkTerrainMap (da s) u (tile_width s) (factor s) (offset s)
    (vmin s) (vmax s) (surface_url s) (colormap s) (tiles s)
    (x_left s) (x_right s) (y_lower s) (y_upper s) (dx s) (dy s)
    (l s) (base_url s) (host s) (trace s) (debug_output s).

Definition set_l (v : Layer) (s : TerrainMap) : TerrainMap :=
  mkTerrainMap (da s) (window_url s) (tile_width s) (factor s) (offset s)
    (vmin s) (vmax s) (surface_url s) (colormap s) (tiles s)
    (x_left s) (x_right s) (y_lower s) (y_upper s) (dx s) (dy s)
    v (base_url s) (host s) (trace s) (debug_output s).

Definition set_base_url (u : list ascii) (s : TerrainMap) : TerrainMap :=
  mkTerrainMap (da s) (window_url s) (tile_width s) (factor s) (offset s)
    (vmin s) (vmax s) (surface_url s) (colormap s) (tiles s)
    (x_left s) (x_right s) (y_lower s) (y_upper s) (dx s) (dy s)
    (l s) (Some u) (host s) (trace s) (debug_output s).

Definition set_host (u : list ascii) (s : TerrainMap) : TerrainMap :=
  mkTerrainMap (da s) (window_url s) (tile_width s) (factor s) (offset s)
    (vmin s) (vmax s) (surface_url s) (colormap s) (tiles s)
    (x_left s) (x_right s) (y_lower s) (y_upper s) (dx s) (dy s)
    (l s) (base_url s) (Some u) (trace s) (debug_output s).

Definition log_event (e : event) (s : TerrainMap) : TerrainMap :=
  mkTerrainMap (da s) (window_url s) (tile_width s) (factor s) (offset s)
    (vmin s) (vmax s) (surface_url s) (colormap s) (tiles s)
    (x_left s) (x_right s) (y_lower s) (y_upper s) (dx s) (dy s)
    (l s) (base_url s) (host s) (trace s ++ [e]) (debug_output s).

(** *** Methods: state passing with exceptions

    A method maps the object before the call to its outcome and the
    object after the call; an exception leaves the assignments made
    before it in place. *)
Definition M (A : Type) : Type := TerrainMap -> result A * TerrainMap.

Definition retM {A : Type} (a : A) : M A := fun s => (inr a, s).

Definition bindM {A B : Type} (c : M A) (k : A -> M B) : M B :=
  fun s =>
    match c s with
    | (inl e, s') => (inl e, s')
    | (inr a, s') => k a s'
    end.

Definition liftR {A : Type} (r : result A) : M A := fun s => (r, s).
Definition getM : M TerrainMap := fun s => (inr s, s).
Definition modifyM (f : TerrainMap -> TerrainMap) : M unit :=
  fun s => (inr tt, f s).

Notation "'run' x <- c ; k" := (bindM c (fun x => k))
  (at level 10, x pattern, c at level 100, k at level 200, only parsing).

(** A method whose body is [with self.debug_output: body]. *)
Definition with_debug_output {A : Type} (body : M A) : M (option A) :=
  fun s =>
    let '(r, s') := body s in (leave_block (debug_output s) r, s').

Definition with_debug_output_unit (body : M unit) : M unit :=
  fun s =>
    let '(r, s') := body s in (leave_block_unit (debug_output s) r, s').

(** ** The libraries behind the tile pipeline *)

(** [mercantile.Tile], [mercantile.LngLatBbox] and [mercantile.Bbox]. *)
Record Tile : Type := mkTile { tile_x : Z; tile_y : Z; tile_z : Z }.
Record LngLatBbox : Type := mkLngLatBbox {
  west : Q; south : Q; east : Q; north : Q
}.
Record Bbox : Type := mkBbox {
  bb_left : Q; bb_bottom : Q; bb_right : Q; bb_top : Q
}.

(** [affine.Affine(a, b, c, d, e, f)]. *)
Record Affine : Type := mkAffine {
  af_a : Q; af_b : Q; af_c : Q; af_d : Q; af_e : Q; af_f : Q
}.

Inductive Resampling : Type := nearest | bilinear | cubic.

(** A label slice [slice(start, stop)]. *)
Definition LabelSlice : Type := (Q * Q)%type.

Class Libs : Type := {
  (** [mercantile.bounds(tile)] and [mercantile.xy_bounds(tile)] *)
  mercantile_bounds : Tile -> result LngLatBbox;
  mercantile_xy_bounds : Tile -> result Bbox;
  (** [da.sel(y=slice(..), x=slice(..))] *)
  xr_sel : DataArray -> LabelSlice -> LabelSlice -> result DataArray;
  (** [DataArrayCoarsen.mean(c)] for [c] the coarsening of the array by
      the windows [dim] with padded boundary *)
  xr_coarsen_mean : gmap string Z -> DataArray -> result DataArray;
  (** [source.rio.reproject(crs, transform=.., shape=.., resampling=..)] *)
  rio_reproject :
    DataArray -> string -> Affine -> Z * Z -> Resampling -> result DataArray;
  (** the widget [Output()] of ipywidgets, as a context manager *)
  ipywidgets_Output : ContextManager
}.

Section Pipeline.
Context {libs : Libs}.

(** ** [plot] *)

Record PlotArgs : Type := mkPlotArgs {
  x_dim : string;
  y_dim : string;
  arg_colormap : option Colormap;
  arg_vmin : option fval;
  arg_vmax : option fval;
  arg_surface_url : option (list ascii);
  arg_debug_output : option ContextManager
}.

Definition both_configured (args : PlotArgs) : bool :=
  match arg_colormap args, arg_surface_url args with
  | Some _, Some _ => true
  | _, _ => false
  end.

Definition colormap_and_surface_url : exn :=
  ValueError "Cannot have a colormap and a surface_url at the same time.".

(** Lines 50-53: the context manager [plot] keeps in
    [self.debug_output], the one it is given or else a new [Output()]. *)
Definition plot_debug_output (args : PlotArgs) : ContextManager :=
  default ipywidgets_Output (arg_debug_output args).

(** Lines 60-94 of [plot], inside [with self.debug_output:], after the
    spinner is created and the wait for the window URL is scheduled: the
    object as the block leaves it at its [return], or the exception it
    raises. *)
Definition plot_body (args : PlotArgs) (a : DataArray) : result TerrainMap :=
  if both_configured args then inl colormap_and_surface_url else
  ok a <- rename (<[x_dim args := "x"%string]> (<[y_dim args := "y"%string]> ∅)) a;
  ok ys <- coord_values "y" a;
  ok a <- (if any_nonneg (np_diff ys) then sel_reversed "y" a else inr a);
  ok y <- coord_values "y" a;
  ok x <- coord_values "x" a;
  ok xl <- np_min x;
  ok xr <- np_max x;
  ok yl <- np_min y;
  ok yu <- np_max y;
  ok ddx <- py_truediv (xr - xl) (Z.of_nat (length x) - 1);
  ok ddy <- py_truediv (yu - yl) (Z.of_nat (length y) - 1);
  inr {| da := a;
         window_url := [];
         tile_width := 256;
         factor := 10;
         offset := 10000;
         vmin := arg_vmin args;
         vmax := arg_vmax args;
         surface_url := arg_surface_url args;
         colormap := arg_colormap args;
         tiles := ∅;
         x_left := xl;
         x_right := xr;
         y_lower := yl;
         y_upper := yu;
         dx := ddx;
         dy := ddy;
         l := mkLayer None None None;
         base_url := None;
         host := None;
         trace := [EnsureFuture "async_wait_for_window_url"];
         debug_output := plot_debug_output args |}.

(** [plot]: what it does to the environment, and how it ends: with the
    object it has set up, with [None] when its context manager swallows
    the exception of the block (the object is then not set up to the
    end, and is not described), or with the exception. *)
Definition plot (args : PlotArgs) (a : DataArray)
  : list event * result (option TerrainMap) :=
  ([EnsureFuture "async_wait_for_window_url"],
   leave_block (plot_debug_output args) (plot_body args a)).

(** ** [coarsen] *)

(** Lines 205-209: the dictionary [dim] of the windows. *)
Definition coarsen_dim (wx wy : Z) : gmap string Z :=
  let dim : gmap string Z := ∅ in
  let dim := if decide (wx > 1) then <["x"%string := wx]> dim else dim in
  let dim := if decide (wy > 1) then <["y"%string := wy]> dim else dim in
  dim.

Definition coarsen (array : DataArray) (tile_width : Z) : result DataArray :=
  let '(ny, nx) := da_shape array in
  ok wx <- py_floordiv nx (tile_width * 2);
  ok wy <- py_floordiv ny (tile_width * 2);
  let dim := coarsen_dim wx wy in
  match xr_coarsen_mean dim array with
  | inr array' => inr array'
  | inl _ => inr array
  end.

(** ** [reproject] *)

Definition reproject (source : DataArray) (x0 y0 x_res y_res : Q)
    (tile_width : Z) : result Raster :=
  let a := x_res in
  let b := 0%Q in
  let c := x0 in
  let d := 0%Q in
  let e := (- y_res)%Q in
  let f := y0 in
  let dst_affine := mkAffine a b c d e f in
  ok destination <-
    rio_reproject source "EPSG:3857" dst_affine (tile_width, tile_width)
                  bilinear;
  inr (da_values destination).

(** ** [get_tile] *)

(** The body of [if key not in self.tiles:] up to the call of
    [reproject]. *)
Definition tile_pipeline (s : TerrainMap) (x y z : Z) : result Raster :=
  let tile := mkTile x y z in
  ok bounds <- mercantile_bounds tile;
  ok xy_bounds <- mercantile_xy_bounds tile;
  ok x_pix <- py_truediv (bb_right xy_bounds - bb_left xy_bounds) (tile_width s);
  ok y_pix <- py_truediv (bb_top xy_bounds - bb_bottom xy_bounds) (tile_width s);
  ok da_tile <-
    xr_sel (da s)
           ((north bounds + dy s)%Q, (south bounds - dy s)%Q)
           ((west bounds - dx s)%Q, (east bounds + dx s)%Q);
  ok da_tile <- coarsen da_tile (tile_width s);
  reproject da_tile (bb_left xy_bounds) (bb_top xy_bounds) x_pix y_pix
            (tile_width s).

Definition get_tile_body (x y z : Z) : M Raster :=
  let key : TileKey := (x, y, z) in
  run s <- getM;
  run _ <- (if decide (key ∈ dom (tiles s)) then retM tt
            else
              run _ <- modifyM (log_event (PipelineRun key));
              run data <- liftR (tile_pipeline s x y z);
              modifyM (fun s => set_tiles (<[key := data]> (tiles s)) s));
  run s <- getM;
  liftR (match tiles s !! key with
         | Some data => inr data
         | None => inl KeyError
         end).

Definition get_tile (x y z : Z) : M (option Raster) :=
  with_debug_output (get_tile_body x y z).

(** An operand that is [None] where an array or a callable is due. *)
Definition none_operand : exn :=
  TypeError "unsupported operand or call on None".

(** ** The request handlers *)

Record Response : Type := mkResponse {
  body : Image;
  status : Z;
  content_type : string
}.

(** Lines 131-134 and 149-152: the last three segments of the URL are
    [z], [x] and [y] followed by [".png"]. *)
Definition parse_request (url : list ascii) : result (Z * Z * Z) :=
  match last3 (split_on "/"%char url) with
  | [zs; xs; ys] =>
      ok z <- py_int zs;
      ok x <- py_int xs;
      ok y <- py_int (py_slice_to ys (-4));
      inr (z, x, y)
  | _ => inl (ValueError "not enough values to unpack")
  end.

Definition arr_map {A B : Type} (f : A -> B) (a : list (list A))
  : list (list B) := map (map f) a.

(** Assignment of a two-dimensional array to one channel of an array of
    shape [(h, w, 3)], with numpy's broadcasting of an extent of one. *)
Definition broadcast_row {A : Type} (w : Z) (row : list A) : result (list A) :=
  if decide (Z.of_nat (length row) = w) then inr row
  else match row with
       | [v] => inr (replicate (Z.to_nat w) v)
       | _ => inl (ValueError "could not broadcast input array")
       end.

Fixpoint broadcast_rows {A : Type} (w : Z) (a : list (list A))
  : result (list (list A)) :=
  match a with
  | [] => inr []
  | row :: a' =>
      ok row' <- broadcast_row w row;
      ok rest <- broadcast_rows w a';
      inr (row' :: rest)
  end.

Definition assign_channel {A : Type} (h w : Z) (a : list (list A))
  : result (list (list A)) :=
  ok rows <- broadcast_rows w a;
  if decide (Z.of_nat (length rows) = h) then inr rows
  else match rows with
       | [row] => inr (replicate (Z.to_nat h) row)
       | _ => inl (ValueError "could not broadcast input array")
       end.

(** The three channels side by side. *)
Definition stack_rgb (r g b : list (list Z)) : Image :=
  zip_with (fun rg brow => zip_with (fun p b => (p.1, p.2, b)) rg brow)
           (zip_with zip r g) b.

Definition png_response (image : Image) : Response :=
  mkResponse image 200 "image/png".

Definition terrain_handler_body (url : list ascii) : M Response :=
  run zxy <- liftR (parse_request url);
  let '(z, x, y) := zxy in
  run data <- get_tile x y z;
  run data <- liftR (from_option inr (inl none_operand) data);
  run s <- getM;
  let data := arr_map (fun e => fmul (fadd e (of_int (offset s)))
                                     (of_int (factor s))) data in
  run blue <- liftR (assign_channel (tile_width s) (tile_width s)
                (arr_map (fun v => to_uint8 (fmod v 256)) data));
  run green <- liftR (assign_channel (tile_width s) (tile_width s)
                (arr_map (fun v => to_uint8 (fmod (ffloordiv v 256) 256)) data));
  run red <- liftR (assign_channel (tile_width s) (tile_width s)
                (arr_map (fun v => to_uint8 (fmod (ffloordiv v (256 * 256)) 256))
                         data));
  retM (png_response (stack_rgb red green blue)).

Definition terrain_handler (url : list ascii) : M (option Response) :=
  with_debug_output (terrain_handler_body url).

(** [da.min()] and [da.max()]: the least and the greatest value of the
    whole grid, NaN values being skipped. *)
Definition fle (a b : fval) : bool :=
  match a, b with
  | NaN, _ | _, NaN => false
  | NInf, _ | _, PInf => true
  | Fin p, Fin q => Qle_bool p q
  | _, _ => false
  end.

Definition nan_min2 (a b : fval) : fval :=
  match a, b with
  | NaN, _ => b
  | _, NaN => a
  | _, _ => if fle a b then a else b
  end.

Definition nan_max2 (a b : fval) : fval :=
  match a, b with
  | NaN, _ => b
  | _, NaN => a
  | _, _ => if fle a b then b else a
  end.

Definition da_min (a : DataArray) : result fval :=
  match concat (da_values a) with
  | [] => inl empty_reduction
  | v :: vs => inr (foldl nan_min2 v vs)
  end.

Definition da_max (a : DataArray) : result fval :=
  match concat (da_values a) with
  | [] => inl empty_reduction
  | v :: vs => inr (foldl nan_max2 v vs)
  end.

(** [(tile - vmin) / (vmax - vmin)], value by value. *)
Definition normalize (lo hi : fval) (tile : Raster) : Raster :=
  arr_map (fun v => fdiv (fsub v lo) (fsub hi lo)) tile.

(** [(colormap(data)[:, :, :3] * 255).astype(np.uint8)], value by value. *)
Definition colorize (cmap : Colormap) (data : Raster) : Image :=
  arr_map (fun v =>
             let '(r, g, b, _) := cmap v in
             (to_uint8 (fmul r (of_int 255)),
              to_uint8 (fmul g (of_int 255)),
              to_uint8 (fmul b (of_int 255)))) data.

(** Lines 136-137 and 138-139: [if self.vmin is None: self.vmin =
    self.da.min().values], and the same for [vmax]. *)
Definition ensure_vmin : M unit :=
  run s <- getM;
  match vmin s with
  | None =>
      run _ <- modifyM (log_event ReduceMin);
      run v <- liftR (da_min (da s));
      modifyM (set_vmin (Some v))
  | Some _ => retM tt
  end.

Definition ensure_vmax : M unit :=
  run s <- getM;
  match vmax s with
  | None =>
      run _ <- modifyM (log_event ReduceMax);
      run v <- liftR (da_max (da s));
      modifyM (set_vmax (Some v))
  | Some _ => retM tt
  end.

Definition surface_handler_body (url : list ascii) : M Response :=
  run zxy <- liftR (parse_request url);
  let '(z, x, y) := zxy in
  run _ <- ensure_vmin;
  run _ <- ensure_vmax;
  run tile <- get_tile x y z;
  run tile <- liftR (from_option inr (inl none_operand) tile);
  run s <- getM;
  run lo <- liftR (from_option inr (inl none_operand) (vmin s));
  run hi <- liftR (from_option inr (inl none_operand) (vmax s));
  let data := normalize lo hi tile in
  run cmap <- liftR (from_option inr (inl none_operand) (colormap s));
  retM (png_response (colorize cmap data)).

Definition surface_handler (url : list ascii) : M (option Response) :=
  with_debug_output (surface_handler_body url).

(** *** The route and the reply

    [start_server] registers each handler for [GET] on the route
    [/{z}/{x}/{y}.png], in which every variable stands for one or more
    characters other than a slash and a brace.  A path the route does
    not match is answered with 404 and no handler runs. *)
Definition segment_ok (w : list ascii) : bool :=
  bool_decide (w <> [])
  && forallb (fun c => negb (bool_decide (c = "{"%char \/ c = "}"%char))) w.

Definition route_match (path : list ascii)
  : option (list ascii * list ascii * list ascii) :=
  match split_on "/"%char path with
  | [[]; zs; xs; ys_png] =>
      if segment_ok zs && segment_ok xs && endswith ys_png (chars ".png")
         && segment_ok (py_slice_to ys_png (-4))
      then Some (zs, xs, py_slice_to ys_png (-4))
      else None
  | _ => None
  end.

(** What the client gets: a response with a status, or what the web
    framework makes of a handler that returned [None], which is left
    open. *)
Inductive reply : Type :=
| Status (code : Z)
| HandlerReturnedNone.

(** An exception that leaves a handler is answered with
    "500 Internal Server Error". *)
Definition reply_of (r : result (option Response)) : reply :=
  match r with
  | inl _ => Status 500
  | inr (Some resp) => Status (status resp)
  | inr None => HandlerReturnedNone
  end.

(** The characters that stand for themselves in the path of a URL:
    letters, digits and the marks that need no escaping.  A path made of
    them has no query string, no fragment and no escape, and reaches the
    router and [str(request.url)] as it was sent. *)
Definition path_char (c : ascii) : bool :=
  let n := nat_of_ascii c in
  bool_decide ((48 <= n <= 57) \/ (65 <= n <= 90) \/ (97 <= n <= 122))%nat
  || existsb (fun d => bool_decide (c = d)) (chars "-._~!$&'()*+,;=:@/").

Definition plain_path (path : list ascii) : bool := forallb path_char path.

(** A [GET] request for the plain path [path] to the server at [origin]
    (as in [http://host:8080]): [str(request.url)] is [origin ++ path]. *)
Definition serve (handler : list ascii -> M (option Response))
    (origin path : list ascii) (s : TerrainMap) : reply * TerrainMap :=
  match route_match path with
  | None => (Status 404, s)
  | Some _ =>
      let '(r, s') := handler (origin ++ path) s in (reply_of r, s')
  end.

(** ** [_start] and the servers *)

Definition start_server (port : Z) (handler : handler_id) : M unit :=
  modifyM (log_event (StartServer port handler)).

Definition get_base_url : M (list ascii) :=
  run s <- getM;
  liftR (from_option inr (inl (AttributeError "base_url")) (base_url s)).

Definition tile_path : list ascii := chars "/{z}/{x}/{y}.png".

Definition _start_body : M unit :=
  run s <- getM;
  let w := window_url s in
  run _ <- (if endswith w (chars "/lab")
            then modifyM (set_base_url (py_slice_to w (-4)))
            else if contains w (chars "/notebooks/")
            then modifyM (set_base_url
                            (py_slice_to w (rfind w (chars "/notebooks/"))))
            else if contains w (chars "/voila/")
            then modifyM (set_base_url
                            (py_slice_to w (rfind w (chars "/voila/"))))
            else retM tt);
  run b <- get_base_url;
  run _ <- (if contains b (chars ":")
            then modifyM (set_base_url (py_slice_to b (rfind b (chars ":"))))
            else retM tt);
  run b <- get_base_url;
  run _ <- modifyM (set_host (drop 7 b));
  run _ <- start_server 8080 TerrainHandler;
  run s <- getM;
  run texture <- (match colormap s with
                  | None => retM (surface_url s)
                  | Some _ =>
                      run _ <- start_server 8081 SurfaceHandler;
                      run b <- get_base_url;
                      retM (Some (b ++ chars ":8081" ++ tile_path))
                  end);
  run b <- get_base_url;
  let terrain_url := b ++ chars ":8080" ++ tile_path in
  run decoder <- liftR (if decide (factor s = 0) then inl ZeroDivisionError
                        else inr (elevation_decoder (factor s) (offset s)));
  modifyM (set_l (mkLayer (Some decoder) (Some terrain_url) texture)).

Definition _start : M unit := with_debug_output_unit _start_body.

(** [async_wait_for_window_url] once the spinner has reported the URL of
    the window: the URL is stored and [map_ready] becomes true, which
    runs [_start]. *)
Definition async_wait_for_window_url (reported : list ascii) : M unit :=
  with_debug_output_unit
    (run _ <- modifyM (set_window_url reported);
     _start).

(** ** Serving

    One step of a served object: a call of [get_tile], or a request to
    one of the two handlers. *)
Inductive serve_step : TerrainMap -> TerrainMap -> Prop :=
| step_get_tile (x y z : Z) (s : TerrainMap) :
    serve_step s (get_tile x y z s).2
| step_terrain (url : list ascii) (s : TerrainMap) :
    serve_step s (terrain_handler url s).2
| step_surface (url : list ascii) (s : TerrainMap) :
    serve_step s (surface_handler url s).2.

Definition served_from (s s' : TerrainMap) : Prop := rtc serve_step s s'.

(** ** Observations on objects and traces *)

Definition is_run (key : TileKey) (e : event) : bool :=
  match e with
  | PipelineRun k => bool_decide (k = key)
  | _ => false
  end.

(** How often the tile pipeline was entered for [key]. *)
Definition pipeline_runs (key : TileKey) (tr : list event) : nat :=
  length (List.filter (is_run key) tr).

Definition is_reduction (e : event) : bool :=
  match e with
  | ReduceMin | ReduceMax => true
  | _ => false
  end.

(** How often [da.min()] or [da.max()] was computed. *)
Definition reductions (tr : list event) : nat :=
  length (List.filter is_reduction tr).

Definition is_start_server (e : event) : bool :=
  match e with
  | StartServer _ _ => true
  | _ => false
  end.

(** An event a served object may add to its trace in the state [s]: a
    pipeline run for an address that is not cached, a reduction for a
    bound that is not set. *)
Definition event_allowed (s : TerrainMap) (e : event) : Prop :=
  match e with
  | PipelineRun k => tiles s !! k = None
  | ReduceMin => vmin s = None
  | ReduceMax => vmax s = None
  | _ => False
  end.

(** What serving may change in an object. *)
Record frame (s s' : TerrainMap) : Prop := mkFrame {
  fr_da : da s' = da s;
  fr_tile_width : tile_width s' = tile_width s;
  fr_factor : factor s' = factor s;
  fr_offset : offset s' = offset s;
  fr_dx : dx s' = dx s;
  fr_dy : dy s' = dy s;
  fr_colormap : colormap s' = colormap s;
  fr_vmin : forall v, vmin s = Some v -> vmin s' = Some v;
  fr_vmax : forall v, vmax s = Some v -> vmax s' = Some v;
  fr_tiles_old : forall k d, tiles s !! k = Some d -> tiles s' !! k = Some d;
  fr_tiles_new : forall x y z d,
      tiles s !! (x, y, z) = None -> tiles s' !! (x, y, z) = Some d ->
      tile_pipeline s x y z = inr d;
  fr_trace : exists extra,
      trace s' = trace s ++ extra /\ Forall (event_allowed s) extra
}.

Definition preserves {A : Type} (c : M A) : Prop :=
  forall s, frame s (c s).2.

(** A two-dimensional array of [h] rows of [w] values. *)
Definition has_shape {A : Type} (h w : Z) (a : list (list A)) : Prop :=
  Z.of_nat (length a) = h /\ Forall (fun row => Z.of_nat (length row) = w) a.

End Pipeline.

(** ** Orientation of an axis *)

Definition strictly_descending (l : list Q) : Prop :=
  Forall (fun d => (d < 0)%Q) (np_diff l).

Definition strictly_ascending (l : list Q) : Prop :=
  Forall (fun d => (0 < d)%Q) (np_diff l).

Definition strictly_monotonic (l : list Q) : Prop :=
  strictly_ascending l \/ strictly_descending l.

(** The y-axis after [plot] has looked at the consecutive differences. *)
Definition oriented (ys : list Q) : list Q :=
  if any_nonneg (np_diff ys) then reverse ys else ys.

(** The array has a dimension of that name. *)
Definition has_dim (name : string) (a : DataArray) : Prop :=
  name = (da_dims a).1 \/ name = (da_dims a).2.

(** A grid with a single latitude. *)
Definition single_row_grid : DataArray :=
  mkDataArray ("y"%string, "x"%string) [10%Q] [0; 1]%Q [[Fin 1; Fin 2]].

(** Status codes of the class 4xx. *)
Definition is_client_error (code : Z) : Prop := 400 <= code < 500.

(** The terrain server of the examples, a path whose [z] segment is not
    a number, and a path whose [z] segment is empty. *)
Definition example_origin : list ascii := chars "http://localhost:8080".

Definition malformed_path : list ascii := chars "/a/0/0.png".

Definition unrouted_path : list ascii := chars "//0/0.png".

(** One for an attribute that is [None], zero otherwise. *)
Definition missing {A : Type} (o : option A) : nat :=
  match o with
  | Some _ => 0
  | None => 1
  end.

(** What the reprojection of the library guarantees: a result has the
    shape it was asked for. *)
Definition reproject_fills_shape (libs : Libs) : Prop :=
  forall src crs transform h w resampling dst,
    rio_reproject src crs transform (h, w) resampling = inr dst ->
    has_shape h w (da_values dst).

(** A floating-point value that is no number or not finite. *)
Definition non_finite (v : fval) : Prop := v = NaN \/ v = PInf \/ v = NInf.

(** The object once [vmin] and [vmax] are set, from the bounds it has or
    else from the reductions [lo] and [hi] of the grid. *)
Definition with_vmin (lo : fval) (s : TerrainMap) : TerrainMap :=
  match vmin s with
  | Some _ => s
  | None => set_vmin (Some lo) (log_event ReduceMin s)
  end.

Definition with_vmax (hi : fval) (s : TerrainMap) : TerrainMap :=
  match vmax s with
  | Some _ => s
  | None => set_vmax (Some hi) (log_event ReduceMax s)
  end.

(** The exceptions [plot] raises past the configuration check. *)
Definition axis_error (e : exn) : Prop :=
  e = rename_error \/ e = rename_conflict
  \/ (exists name, e = AttributeError name) \/ e = KeyError
  \/ e = empty_reduction \/ e = ZeroDivisionError.

(** ** An example object

    A stand-in for the libraries, for examples: every tile has the
    bounds of the whole world, selection keeps the grid, block-averaging
    fails, and reprojection fills the requested shape with the first
    value of its source (NaN for an empty source), a negative extent
    being refused. *)

Definition fill_raster (h w : Z) (v : fval) : Raster :=
  replicate (Z.to_nat h) (replicate (Z.to_nat w) v).

Definition first_value (a : DataArray) : fval :=
  match concat (da_values a) with
  | v :: _ => v
  | [] => NaN
  end.

Definition example_libs : Libs :=
  {| mercantile_bounds := fun _ => inr (mkLngLatBbox (-180) (-85) 180 85);
     mercantile_xy_bounds :=
       fun _ => inr (mkBbox (-20037508) (-20037508) 20037508 20037508);
     xr_sel := fun a _ _ => inr a;
     xr_coarsen_mean := fun _ _ => inl (ValueError "no block average");
     rio_reproject :=
       fun a _ _ shape _ =>
         if decide (0 <= shape.1 /\ 0 <= shape.2)
         then inr (mkDataArray (da_dims a) [] []
                     (fill_raster shape.1 shape.2 (first_value a)))
         else inl (ValueError "negative dimensions are not allowed");
     ipywidgets_Output := mkContextManager (fun _ => false) |}.

(** The same libraries in an IPython kernel, where the widget
    [Output()] swallows every exception. *)
Definition kernel_libs : Libs :=
  {| mercantile_bounds := @mercantile_bounds example_libs;
     mercantile_xy_bounds := @mercantile_xy_bounds example_libs;
     xr_sel := @xr_sel example_libs;
     xr_coarsen_mean := @xr_coarsen_mean example_libs;
     rio_reproject := @rio_reproject example_libs;
     ipywidgets_Output := mkContextManager (fun _ => true) |}.

(** A grid of constant elevation 500 with the ascending latitudes
    10, 20, 30, and the object [plot] makes of it. *)
Definition example_grid : DataArray :=
  mkDataArray ("y"%string, "x"%string) [10; 20; 30]%Q [0; 1]%Q
    (replicate 3 (replicate 2 (Fin 500))).

Definition example_args : PlotArgs :=
  mkPlotArgs "x" "y" None None None None None.

Definition example_map : TerrainMap :=
  {| da := mkDataArray ("y"%string, "x"%string) [30; 20; 10]%Q [0; 1]%Q
             (replicate 3 (replicate 2 (Fin 500)));
     window_url := [];
     tile_width := 256;
     factor := 10;
     offset := 10000;
     vmin := None;
     vmax := None;
     surface_url := None;
     colormap := None;
     tiles := ∅;
     x_left := 0;
     x_right := 1;
     y_lower := 10;
     y_upper := 30;
     dx := 1;
     dy := 20 # 2;
     l := mkLayer None None None;
     base_url := None;
     host := None;
     trace := [EnsureFuture "async_wait_for_window_url"];
     debug_output := mkContextManager (fun _ => false) |}.

(** A grey colormap, and the example object with it: [plot] called with
    [colormap=grey] on the example grid. *)
Definition grey : Colormap := fun v => (v, v, v, Fin 1).

Definition example_surface_map : TerrainMap :=
  mkTerrainMap (da example_map) [] 256 10 10000 None None None (Some grey) ∅
    0 1 10 30 1 (20 # 2) (mkLayer None None None) None None
    [EnsureFuture "async_wait_for_window_url"]
    (mkContextManager (fun _ => false)).

Definition example_url : list ascii := chars "http://localhost:8081/0/0/0.png".

Definition example_terrain_url : list ascii :=
  chars "http://localhost:8080/0/0/0.png".

(** ** Further notions used in the statements *)

(** A stand-in for the libraries whose selection raises. *)
Definition failing_libs : Libs :=
  {| mercantile_bounds := fun _ => inr (mkLngLatBbox (-180) (-85) 180 85);
     mercantile_xy_bounds :=
       fun _ => inr (mkBbox (-20037508) (-20037508) 20037508 20037508);
     xr_sel := fun _ _ _ => inl KeyError;
     xr_coarsen_mean := fun _ a => inr a;
     rio_reproject := fun a _ _ _ _ => inr a;
     ipywidgets_Output := mkContextManager (fun _ => false) |}.

(** The point an affine transform sends the pixel position
    [(col, row)] to: [(a * col + b * row + c, d * col + e * row + f)]. *)
Definition affine_apply (t : Affine) (col row : Q) : Q * Q :=
  ((af_a t * col + af_b t * row + af_c t)%Q,
   (af_d t * col + af_e t * row + af_f t)%Q).

(** The [n] coordinates [x0, x0 + d, x0 + 2 d, ...] of a uniform axis. *)
Fixpoint uniform_axis (x0 d : Q) (n : nat) : list Q :=
  match n with
  | O => []
  | S n' => x0 :: uniform_axis (x0 + d) d n'
  end.

(** * Properties *)

(** ** Floor and the base-256 digits *)

Lemma Qfloor_spec (x : Q) (n : Z) :
  (inject_Z n <= x)%Q -> (x < inject_Z (n + 1))%Q -> Qfloor x = n.
Proof.
  intros Hlo Hhi.
  pose proof (Qfloor_le x) as Hfl.
  pose proof (Qlt_floor x) as Hfu.
  assert (H1 : (inject_Z n < inject_Z (Qfloor x + 1))%Q) by
    (eapply Qle_lt_trans; eassumption).
  assert (H2 : (inject_Z (Qfloor x) < inject_Z (n + 1))%Q) by
    (eapply Qle_lt_trans; eassumption).
  rewrite <- Zlt_Qlt in H1, H2. lia.
Qed.

Lemma Qfloor_div_pos (x : Q) (k : Z) :
  0 < k -> Qfloor (x / inject_Z k) = Qfloor x / k.
Proof.
  intros Hk.
  assert (HkQ : (0 < inject_Z k)%Q) by (rewrite (Zlt_Qlt 0 k) in Hk; exact Hk).
  pose proof (Qfloor_le x) as Hfl.
  pose proof (Qlt_floor x) as Hfu.
  set (n := Qfloor x) in *.
  pose proof (Z.div_mod n k ltac:(lia)) as Hdm.
  pose proof (Z.mod_pos_bound n k Hk) as Hmb.
  apply Qfloor_spec.
  - apply Qle_shift_div_l; [exact HkQ|].
    eapply Qle_trans; [|exact Hfl].
    rewrite <- inject_Z_mult, <- Zle_Qle. lia.
  - apply Qlt_shift_div_r; [exact HkQ|].
    eapply Qlt_le_trans; [exact Hfu|].
    rewrite <- inject_Z_mult, <- Zle_Qle. lia.
Qed.

Lemma Qfloor_sub_Z (x : Q) (m : Z) :
  Qfloor (x - inject_Z m) = Qfloor x - m.
Proof.
  pose proof (Qfloor_le x) as Hfl.
  pose proof (Qlt_floor x) as Hfu.
  apply Qfloor_spec.
  - unfold Z.sub. rewrite inject_Z_plus, inject_Z_opp. lra.
  - replace (Qfloor x - m + 1) with ((Qfloor x + 1) + - m) by lia.
    rewrite inject_Z_plus, inject_Z_opp. lra.
Qed.

Lemma Qtrunc_nonneg (q : Q) : (0 <= q)%Q -> Qtrunc q = Qfloor q.
Proof.
  intros H. unfold Qtrunc.
  destruct (Qle_bool 0 q) eqn:E; [reflexivity|].
  apply Qle_bool_iff in H. congruence.
Qed.

(** [v % 256] converted to [uint8] is the residue of [floor v]. *)
Lemma to_uint8_fmod (v : Q) :
  to_uint8 (fmod (Fin v) 256) = Qfloor v mod 256.
Proof.
  cbn [fmod to_uint8].
  rewrite (Qfloor_div_pos v 256) by lia.
  rewrite <- inject_Z_mult.
  pose proof (Qfloor_le v) as Hfl.
  pose proof (Z.mul_div_le (Qfloor v) 256 ltac:(lia)) as Hle.
  rewrite Zle_Qle in Hle.
  rewrite Qtrunc_nonneg by lra.
  rewrite Qfloor_sub_Z.
  rewrite <- (Z.mod_eq (Qfloor v) 256) by lia.
  pose proof (Z.mod_pos_bound (Qfloor v) 256 ltac:(lia)) as Hbound.
  rewrite decide_True by lia.
  apply Z.mod_mod. lia.
Qed.

Lemma ffloordiv_Fin (v : Q) (k : Z) :
  0 < k -> ffloordiv (Fin v) k = Fin (inject_Z (Qfloor v / k)).
Proof. intros Hk. cbn [ffloordiv]. now rewrite Qfloor_div_pos. Qed.

(** The three channels are the base-256 digits of [floor v]. *)
Lemma encode_pixel_digits (factor offset : Z) (e : Q) :
  let n := Qfloor ((e + inject_Z offset) * inject_Z factor) in
  encode_pixel factor offset (Fin e)
  = ((n / 65536) mod 256, (n / 256) mod 256, n mod 256).
Proof.
  intros n. unfold encode_pixel, of_int. cbn [fadd fmul].
  rewrite !ffloordiv_Fin by lia.
  rewrite !to_uint8_fmod, !Qfloor_Z. reflexivity.
Qed.

Lemma digits_recompose (n : Z) :
  0 <= n < 256 ^ 3 ->
  (n / 65536) mod 256 * 65536 + (n / 256) mod 256 * 256 + n mod 256 = n.
Proof.
  intros Hn.
  assert (H3 : 256 ^ 3 = 16777216) by reflexivity. rewrite H3 in Hn.
  rewrite (Z.mod_small (n / 65536) 256).
  2:{ split; [apply Z.div_pos; lia | apply Z.div_lt_upper_bound; lia]. }
  pose proof (Z.div_mod n 256 ltac:(lia)).
  pose proof (Z.div_mod (n / 256) 256 ltac:(lia)).
  replace (n / 65536) with (n / 256 / 256)
    by (rewrite Z.div_div by lia; reflexivity).
  lia.
Qed.

(** C1. With a positive [factor], every elevation [e] whose scaled value
    [(e + offset) * factor] lies in [0, 256^3) is packed by
    [terrain_handler] into three channels from which the decoder built by
    [_start] recovers a value within [1 / factor] of [e]: the decoded
    value is at most [e] and misses it by less than [1 / factor]. *)
Theorem encode_decode_roundtrip (factor offset : Z) (e : Q) :
  0 < factor ->
  (0 <= (e + inject_Z offset) * inject_Z factor)%Q ->
  ((e + inject_Z offset) * inject_Z factor < inject_Z (256 ^ 3))%Q ->
  (Qabs (decode_pixel (elevation_decoder factor offset)
                      (encode_pixel factor offset (Fin e)) - e)
   < 1 / inject_Z factor)%Q.
Proof.
  intros Hf Hlo Hhi.
  rewrite encode_pixel_digits.
  set (v := ((e + inject_Z offset) * inject_Z factor)%Q) in *.
  set (n := Qfloor v).
  assert (HfQ : (0 < inject_Z factor)%Q) by (rewrite (Zlt_Qlt 0) in Hf; exact Hf).
  pose proof (Qfloor_le v) as Hfl. pose proof (Qlt_floor v) as Hfu.
  fold n in Hfl, Hfu.
  assert (Hn : 0 <= n < 256 ^ 3).
  { split.
    - replace 0 with (Qfloor 0) by reflexivity. now apply Qfloor_resp_le.
    - rewrite Zlt_Qlt. eapply Qle_lt_trans; eassumption. }
  pose proof (digits_recompose n Hn) as Hrec.
  unfold decode_pixel, elevation_decoder. cbn [rScaler gScaler bScaler dec_offset].
  set (r := (n / 65536) mod 256) in *.
  set (g := (n / 256) mod 256) in *.
  set (b := n mod 256) in *.
  assert (Hsum : (inject_Z r * (65536 / inject_Z factor)
                  + inject_Z g * (256 / inject_Z factor)
                  + inject_Z b * (1 / inject_Z factor) + - inject_Z offset
                  - e == (inject_Z n - v) / inject_Z factor)%Q).
  { rewrite <- Hrec. rewrite !inject_Z_plus, !inject_Z_mult.
    unfold v. change (inject_Z 65536) with 65536%Q.
    change (inject_Z 256) with 256%Q. field. lra. }
  rewrite Hsum.
  rewrite inject_Z_plus in Hfu. change (inject_Z 1) with 1%Q in Hfu.
  apply Qabs_Qlt_condition. split.
  - apply Qlt_shift_div_l; [exact HfQ|].
    rewrite <- (Qmult_comm (inject_Z factor)).
    setoid_replace (inject_Z factor * - (1 / inject_Z factor))%Q with (-1)%Q
      using relation Qeq by (field; lra).
    lra.
  - apply Qlt_shift_div_r; [exact HfQ|].
    setoid_replace (1 / inject_Z factor * inject_Z factor)%Q with 1%Q
      using relation Qeq by (field; lra).
    lra.
Qed.

(** The pixel of the specification's example: [e = 1234.5] with
    [factor = 10] and [offset = 10000]. *)
Lemma encode_decode_roundtrip_witness :
  (Qabs (decode_pixel (elevation_decoder 10 10000)
                      (encode_pixel 10 10000 (Fin (12345 # 10))) - (12345 # 10))
   < 1 / inject_Z 10)%Q.
Proof.
  apply (encode_decode_roundtrip 10 10000 (12345 # 10)).
  - lia.
  - vm_compute. discriminate.
  - vm_compute. reflexivity.
Defined.

(** ** The tile cache *)

Section CacheProperties.
Context {libs : Libs}.

Lemma get_tile_body_hit (s : TerrainMap) (x y z : Z) (data : Raster) :
  tiles s !! (x, y, z) = Some data ->
  get_tile_body x y z s = (inr data, s).
Proof.
  intros Hin. unfold get_tile_body, bindM, getM, retM, liftR.
  destruct (decide _) as [_|Hout].
  - cbn. now rewrite Hin.
  - exfalso. apply Hout, elem_of_dom. now exists data.
Qed.

Lemma get_tile_body_miss (s : TerrainMap) (x y z : Z) :
  tiles s !! (x, y, z) = None ->
  get_tile_body x y z s =
    match tile_pipeline s x y z with
    | inr data =>
        (inr data,
         set_tiles (<[(x, y, z) := data]> (tiles s))
                   (log_event (PipelineRun (x, y, z)) s))
    | inl e => (inl e, log_event (PipelineRun (x, y, z)) s)
    end.
Proof.
  intros Hout. unfold get_tile_body, bindM, getM, retM, liftR, modifyM.
  destruct (decide _) as [Hin|_].
  - apply elem_of_dom in Hin as [d Hd]. congruence.
  - destruct (tile_pipeline s x y z) as [e|data]; [reflexivity|].
    cbn. now rewrite lookup_insert_eq.
Qed.

Lemma get_tile_hit (s : TerrainMap) (x y z : Z) (data : Raster) :
  tiles s !! (x, y, z) = Some data ->
  get_tile x y z s = (inr (Some data), s).
Proof.
  intros Hin. unfold get_tile, with_debug_output.
  now rewrite (get_tile_body_hit _ _ _ _ _ Hin).
Qed.

Lemma get_tile_miss (s : TerrainMap) (x y z : Z) :
  tiles s !! (x, y, z) = None ->
  get_tile x y z s =
    match tile_pipeline s x y z with
    | inr data =>
        (inr (Some data),
         set_tiles (<[(x, y, z) := data]> (tiles s))
                   (log_event (PipelineRun (x, y, z)) s))
    | inl e => (leave_block (debug_output s) (inl e),
                log_event (PipelineRun (x, y, z)) s)
    end.
Proof.
  intros Hout. unfold get_tile, with_debug_output.
  rewrite (get_tile_body_miss _ _ _ _ Hout).
  destruct (tile_pipeline s x y z); reflexivity.
Qed.

(** The pipeline reads the grid, its spacing and the tile width, nothing
    else. *)
Lemma tile_pipeline_ext (s s' : TerrainMap) (x y z : Z) :
  da s' = da s -> tile_width s' = tile_width s ->
  dx s' = dx s -> dy s' = dy s ->
  tile_pipeline s' x y z = tile_pipeline s x y z.
Proof.
  intros Hda Htw Hdx Hdy. unfold tile_pipeline.
  now rewrite Hda, Htw, Hdx, Hdy.
Qed.

Lemma frame_refl (s : TerrainMap) : frame s s.
Proof.
  split; try reflexivity; try (intros; assumption).
  - intros x y z d Hn Hs. congruence.
  - exists []. split; [now rewrite app_nil_r | constructor].
Qed.

Lemma event_allowed_frame (s s' : TerrainMap) (e : event) :
  frame s s' -> event_allowed s' e -> event_allowed s e.
Proof.
  intros F. destruct e; cbn; try tauto.
  - intros Hk. destruct (tiles s !! key) as [d|] eqn:E; [|reflexivity].
    apply (fr_tiles_old _ _ F) in E. congruence.
  - intros Hv. destruct (vmin s) as [v|] eqn:E; [|reflexivity].
    apply (fr_vmin _ _ F) in E. congruence.
  - intros Hv. destruct (vmax s) as [v|] eqn:E; [|reflexivity].
    apply (fr_vmax _ _ F) in E. congruence.
Qed.

Lemma frame_trans (s1 s2 s3 : TerrainMap) :
  frame s1 s2 -> frame s2 s3 -> frame s1 s3.
Proof.
  intros F G. split.
  - now rewrite (fr_da _ _ G), (fr_da _ _ F).
  - now rewrite (fr_tile_width _ _ G), (fr_tile_width _ _ F).
  - now rewrite (fr_factor _ _ G), (fr_factor _ _ F).
  - now rewrite (fr_offset _ _ G), (fr_offset _ _ F).
  - now rewrite (fr_dx _ _ G), (fr_dx _ _ F).
  - now rewrite (fr_dy _ _ G), (fr_dy _ _ F).
  - now rewrite (fr_colormap _ _ G), (fr_colormap _ _ F).
  - intros v Hv. now apply (fr_vmin _ _ G), (fr_vmin _ _ F).
  - intros v Hv. now apply (fr_vmax _ _ G), (fr_vmax _ _ F).
  - intros k d Hk. now apply (fr_tiles_old _ _ G), (fr_tiles_old _ _ F).
  - intros x y z d Hn Hs.
    destruct (tiles s2 !! (x, y, z)) as [d'|] eqn:E.
    + pose proof (fr_tiles_old _ _ G _ _ E) as E'.
      assert (d' = d) as -> by congruence.
      now apply (fr_tiles_new _ _ F).
    + rewrite <- (fr_tiles_new _ _ G _ _ _ _ E Hs).
      symmetry. apply tile_pipeline_ext; apply F.
  - destruct (fr_trace _ _ F) as (e1 & T1 & A1).
    destruct (fr_trace _ _ G) as (e2 & T2 & A2).
    exists (e1 ++ e2). split.
    + now rewrite T2, T1, app_assoc.
    + apply Forall_app. split; [exact A1|].
      eapply Forall_impl; [exact A2|]. intros e. now apply event_allowed_frame.
Qed.

Lemma frame_log (s : TerrainMap) (e : event) :
  event_allowed s e -> frame s (log_event e s).
Proof.
  intros He. split; try reflexivity; try (intros; assumption).
  - intros x y z d Hn Hs. cbn in Hs. congruence.
  - exists [e]. split; [reflexivity | now constructor].
Qed.

Lemma frame_set_vmin (s : TerrainMap) (v : fval) :
  vmin s = None -> frame s (set_vmin (Some v) s).
Proof.
  intros Hv. split; try reflexivity; try (intros; assumption).
  - intros v' Hv'. congruence.
  - intros x y z d Hn Hs. cbn in Hs. congruence.
  - exists []. split; [cbn; now rewrite app_nil_r | constructor].
Qed.

Lemma frame_set_vmax (s : TerrainMap) (v : fval) :
  vmax s = None -> frame s (set_vmax (Some v) s).
Proof.
  intros Hv. split; try reflexivity; try (intros; assumption).
  - intros v' Hv'. congruence.
  - intros x y z d Hn Hs. cbn in Hs. congruence.
  - exists []. split; [cbn; now rewrite app_nil_r | constructor].
Qed.

Lemma frame_store (s : TerrainMap) (x y z : Z) (data : Raster) :
  tiles s !! (x, y, z) = None ->
  tile_pipeline s x y z = inr data ->
  frame s (set_tiles (<[(x, y, z) := data]> (tiles s)) s).
Proof.
  intros Hn Hp. split; try reflexivity; try (intros; assumption).
  - intros k d Hk. cbn. rewrite lookup_insert_ne; [exact Hk | congruence].
  - intros x' y' z' d Hn' Hs. cbn in Hs.
    destruct (decide ((x, y, z) = (x', y', z'))) as [E|E].
    + inversion E; subst. rewrite lookup_insert_eq in Hs. congruence.
    + rewrite lookup_insert_ne in Hs by exact E. congruence.
  - exists []. split; [cbn; now rewrite app_nil_r | constructor].
Qed.

(** *** Every method of a served object stays within the frame *)

Lemma preserves_ret {A : Type} (a : A) : preserves (retM a).
Proof. intros s. apply frame_refl. Qed.

Lemma preserves_lift {A : Type} (r : result A) : preserves (liftR r).
Proof. intros s. apply frame_refl. Qed.

Lemma preserves_get : preserves getM.
Proof. intros s. apply frame_refl. Qed.

Lemma preserves_bind {A B : Type} (c : M A) (k : A -> M B) :
  preserves c -> (forall a, preserves (k a)) -> preserves (bindM c k).
Proof.
  intros Hc Hk s. unfold bindM.
  specialize (Hc s). destruct (c s) as [[e|a] s']; cbn in *; [exact Hc|].
  eapply frame_trans; [exact Hc | apply Hk].
Qed.

Lemma preserves_with {A : Type} (c : M A) :
  preserves c -> preserves (with_debug_output c).
Proof.
  intros Hc s. unfold with_debug_output. specialize (Hc s).
  destruct (c s) as [r s']. exact Hc.
Qed.

Lemma preserves_get_tile (x y z : Z) : preserves (get_tile x y z).
Proof.
  intros s. destruct (tiles s !! (x, y, z)) as [d|] eqn:E.
  - rewrite (get_tile_hit _ _ _ _ _ E). apply frame_refl.
  - rewrite (get_tile_miss _ _ _ _ E).
    destruct (tile_pipeline s x y z) as [e|data] eqn:P; cbn [snd].
    + now apply frame_log.
    + eapply frame_trans; [apply (frame_log s (PipelineRun (x, y, z))); exact E|].
      apply (frame_store (log_event _ s)); [exact E | exact P].
Qed.

Lemma preserves_ensure_vmin : preserves ensure_vmin.
Proof.
  intros s. unfold ensure_vmin, bindM, getM, modifyM, liftR, retM.
  destruct (vmin s) as [v|] eqn:E; [apply frame_refl|].
  destruct (da_min (da s)) as [e|v]; cbn [snd].
  - now apply frame_log.
  - eapply frame_trans; [apply (frame_log s ReduceMin); exact E|].
    now apply frame_set_vmin.
Qed.

Lemma preserves_ensure_vmax : preserves ensure_vmax.
Proof.
  intros s. unfold ensure_vmax, bindM, getM, modifyM, liftR, retM.
  destruct (vmax s) as [v|] eqn:E; [apply frame_refl|].
  destruct (da_max (da s)) as [e|v]; cbn [snd].
  - now apply frame_log.
  - eapply frame_trans; [apply (frame_log s ReduceMax); exact E|].
    now apply frame_set_vmax.
Qed.

Ltac preserves_step :=
  first [ apply preserves_ret | apply preserves_lift | apply preserves_get
        | apply preserves_get_tile | apply preserves_ensure_vmin
        | apply preserves_ensure_vmax
        | apply preserves_bind; [| intros ?] ].

Lemma preserves_terrain_handler (url : list ascii) :
  preserves (terrain_handler url).
Proof.
  unfold terrain_handler. apply preserves_with. unfold terrain_handler_body.
  apply preserves_bind; [apply preserves_lift | intros [[z x] y]].
  repeat preserves_step.
Qed.

Lemma preserves_surface_handler (url : list ascii) :
  preserves (surface_handler url).
Proof.
  unfold surface_handler. apply preserves_with. unfold surface_handler_body.
  apply preserves_bind; [apply preserves_lift | intros [[z x] y]].
  repeat preserves_step.
Qed.

Lemma serve_step_frame (s s' : TerrainMap) : serve_step s s' -> frame s s'.
Proof.
  intros [x y z s0|url s0|url s0].
  - apply preserves_get_tile.
  - apply preserves_terrain_handler.
  - apply preserves_surface_handler.
Qed.

Lemma served_from_frame (s s' : TerrainMap) : served_from s s' -> frame s s'.
Proof.
  induction 1 as [s|s1 s2 s3 Hstep _ IH].
  - apply frame_refl.
  - eapply frame_trans; [apply serve_step_frame; exact Hstep | exact IH].
Qed.

Lemma pipeline_runs_app (key : TileKey) (t1 t2 : list event) :
  pipeline_runs key (t1 ++ t2) = (pipeline_runs key t1 + pipeline_runs key t2)%nat.
Proof. unfold pipeline_runs. now rewrite List.filter_app, length_app. Qed.

Lemma pipeline_runs_allowed (s : TerrainMap) (key : TileKey) (extra : list event) :
  is_Some (tiles s !! key) ->
  Forall (event_allowed s) extra -> pipeline_runs key extra = 0%nat.
Proof.
  intros [d Hd]. induction 1 as [|e extra He _ IH]; [reflexivity|].
  unfold pipeline_runs in *. cbn [List.filter].
  destruct e; cbn [is_run]; try exact IH.
  cbn in He. case_bool_decide; [congruence | exact IH].
Qed.

(** C2. When the address [(x, y, z)] is not cached and the tile pipeline
    yields a raster [data], [get_tile] returns [data], stores it under
    [(x, y, z)] and records one pipeline run; after that, whatever
    requests are served in between, [get_tile] on the same address
    returns [data] and leaves the object as it is, so that the pipeline
    is run no further time for that address. *)
Theorem get_tile_at_most_once (s : TerrainMap) (x y z : Z) (data : Raster) :
  tiles s !! (x, y, z) = None ->
  tile_pipeline s x y z = inr data ->
  let s1 := (get_tile x y z s).2 in
  (get_tile x y z s).1 = inr (Some data)
  /\ tiles s1 = <[(x, y, z) := data]> (tiles s)
  /\ trace s1 = trace s ++ [PipelineRun (x, y, z)]
  /\ forall s2, served_from s1 s2 ->
       get_tile x y z s2 = (inr (Some data), s2)
       /\ pipeline_runs (x, y, z) (trace s2)
          = S (pipeline_runs (x, y, z) (trace s)).
Proof.
  intros Hn Hp s1. subst s1.
  rewrite (get_tile_miss _ _ _ _ Hn), Hp. cbn [fst snd].
  split; [reflexivity|]. split; [reflexivity|]. split; [reflexivity|].
  intros s2 Hserved. apply served_from_frame in Hserved.
  set (s1 := set_tiles _ _) in Hserved.
  assert (Hs1 : tiles s1 !! (x, y, z) = Some data) by apply lookup_insert_eq.
  split.
  - apply get_tile_hit. now apply (fr_tiles_old _ _ Hserved).
  - destruct (fr_trace _ _ Hserved) as (extra & -> & Hall).
    rewrite pipeline_runs_app.
    rewrite (pipeline_runs_allowed s1 _ extra) by eauto.
    subst s1. cbn [trace set_tiles log_event].
    rewrite pipeline_runs_app.
    unfold pipeline_runs at 2. cbn [List.filter is_run].
    rewrite bool_decide_eq_true_2 by reflexivity.
    cbn [length]. lia.
Qed.

End CacheProperties.

(** The example object serves the address (0, 0, 0) from an empty
    cache. *)
Lemma get_tile_at_most_once_witness :
  let s1 := (@get_tile example_libs 0 0 0 example_map).2 in
  (@get_tile example_libs 0 0 0 example_map).1
  = inr (Some (fill_raster 256 256 (Fin 500)))
  /\ tiles s1 = <[(0, 0, 0) := fill_raster 256 256 (Fin 500)]> (tiles example_map)
  /\ trace s1 = trace example_map ++ [PipelineRun (0, 0, 0)]
  /\ forall s2, @served_from example_libs s1 s2 ->
       @get_tile example_libs 0 0 0 s2
       = (inr (Some (fill_raster 256 256 (Fin 500))), s2)
       /\ pipeline_runs (0, 0, 0) (trace s2)
          = S (pipeline_runs (0, 0, 0) (trace example_map)).
Proof.
  apply (@get_tile_at_most_once example_libs example_map 0 0 0
           (fill_raster 256 256 (Fin 500))).
  - reflexivity.
  - vm_compute. reflexivity.
Defined.

(** ** Grid normalization in [plot] *)

Lemma rename_xy (args : PlotArgs) (a : DataArray) (xs ys : list Q) :
  x_dim args <> y_dim args ->
  coord_values (x_dim args) a = inr xs ->
  coord_values (y_dim args) a = inr ys ->
  exists a1,
    rename (<[x_dim args := "x"%string]> (<[y_dim args := "y"%string]> ∅)) a
    = inr a1
    /\ coord_values "x" a1 = inr xs /\ coord_values "y" a1 = inr ys.
Proof.
  destruct a as [[d0 d1] c0 c1 v]. unfold coord_values, rename.
  cbn [da_dims da_coord0 da_coord1 da_values].
  set (x := x_dim args). set (y := y_dim args). intros Hxy Hx Hy.
  assert (Hcases : (x = d0 /\ y = d1 /\ c0 = xs /\ c1 = ys)
                   \/ (x = d1 /\ y = d0 /\ c1 = xs /\ c0 = ys)).
  { destruct (decide (x = d0)) as [Ex0|Nx0].
    - destruct (decide (y = d0)) as [Ey0|Ny0]; [congruence|].
      destruct (decide (y = d1)) as [Ey1|Ny1]; [|discriminate].
      left. repeat split; congruence.
    - destruct (decide (x = d1)) as [Ex1|Nx1]; [|discriminate].
      destruct (decide (y = d0)) as [Ey0|Ny0].
      + right. repeat split; congruence.
      + destruct (decide (y = d1)) as [Ey1|Ny1]; [congruence|discriminate]. }
  assert (Hsub : dom (<[x := "x"%string]> (<[y := "y"%string]> (∅ : gmap string string)))
                 ⊆ ({[ d0; d1 ]} : gset string)).
  { intros k. rewrite !dom_insert_L, dom_empty_L, !elem_of_union,
      !elem_of_singleton, elem_of_empty.
    destruct Hcases as [(-> & -> & _)|(-> & -> & _)]; intros [->|[->|[]]]; tauto. }
  rewrite (decide_True _ _ Hsub).
  destruct Hcases as [(<- & <- & <- & <-)|(<- & <- & <- & <-)].
  - rewrite lookup_insert_eq, lookup_insert_ne, lookup_insert_eq by congruence.
    cbn [default from_option]. unfold id.
    rewrite decide_False by discriminate.
    eexists. split; [reflexivity|]. split; reflexivity.
  - rewrite lookup_insert_ne, !lookup_insert_eq by congruence.
    cbn [default from_option]. unfold id.
    rewrite decide_False by discriminate.
    eexists. split; [reflexivity|]. split; reflexivity.
Qed.

Lemma sel_reversed_y (a : DataArray) (xs ys : list Q) :
  coord_values "x" a = inr xs ->
  coord_values "y" a = inr ys ->
  exists a', sel_reversed "y" a = inr a'
    /\ coord_values "x" a' = inr xs
    /\ coord_values "y" a' = inr (reverse ys).
Proof.
  destruct a as [[d0 d1] c0 c1 v]. unfold coord_values, sel_reversed.
  cbn [da_dims da_coord0 da_coord1 da_values].
  intros Hx Hy.
  destruct (decide ("y"%string = d0)) as [Ey0|Ny0].
  - eexists. split; [reflexivity|].
    cbn [da_dims da_coord0 da_coord1 da_values].
    rewrite (decide_True _ _ Ey0).
    destruct (decide ("x"%string = d0)) as [Ex0|Nx0]; [congruence|].
    destruct (decide ("x"%string = d1)) as [Ex1|Nx1]; [|discriminate].
    split; congruence.
  - destruct (decide ("y"%string = d1)) as [Ey1|Ny1]; [|discriminate].
    eexists. split; [reflexivity|].
    cbn [da_dims da_coord0 da_coord1 da_values].
    rewrite (decide_False _ _ Ny0), (decide_True _ _ Ey1).
    destruct (decide ("x"%string = d0)) as [Ex0|Nx0].
    + split; congruence.
    + destruct (decide ("x"%string = d1)) as [Ex1|Nx1]; [congruence|discriminate].
Qed.

Lemma Qmin_cases (p q : Q) : Qmin p q = p \/ Qmin p q = q.
Proof.
  unfold Qmin, GenericMinMax.gmin. destruct (p ?= q)%Q; auto.
Qed.

Lemma Qmax_cases (p q : Q) : Qmax p q = p \/ Qmax p q = q.
Proof.
  unfold Qmax, GenericMinMax.gmax. destruct (p ?= q)%Q; auto.
Qed.

Lemma foldl_Qmin_spec (l : list Q) (q : Q) :
  In (foldl Qmin q l) (q :: l) /\ Forall (Qle (foldl Qmin q l)) (q :: l).
Proof.
  revert q. induction l as [|x l IH]; intros q; cbn [foldl].
  - split; [now left | constructor; [apply Qle_refl | constructor]].
  - destruct (IH (Qmin q x)) as [Hin Hall].
    apply Forall_cons in Hall as [Hm Hl].
    split.
    + destruct Hin as [<-|Hin]; [|right; now right].
      destruct (Qmin_cases q x) as [->| ->]; [now left | right; now left].
    + repeat constructor; [| |exact Hl].
      * eapply Qle_trans; [exact Hm | apply Q.le_min_l].
      * eapply Qle_trans; [exact Hm | apply Q.le_min_r].
Qed.

Lemma foldl_Qmax_spec (l : list Q) (q : Q) :
  In (foldl Qmax q l) (q :: l)
  /\ Forall (fun v => (v <= foldl Qmax q l)%Q) (q :: l).
Proof.
  revert q. induction l as [|x l IH]; intros q; cbn [foldl].
  - split; [now left | constructor; [apply Qle_refl | constructor]].
  - destruct (IH (Qmax q x)) as [Hin Hall].
    apply Forall_cons in Hall as [Hm Hl].
    split.
    + destruct Hin as [<-|Hin]; [|right; now right].
      destruct (Qmax_cases q x) as [->| ->]; [now left | right; now left].
    + repeat constructor; [| |exact Hl].
      * eapply Qle_trans; [apply Q.le_max_l | exact Hm].
      * eapply Qle_trans; [apply Q.le_max_r | exact Hm].
Qed.

(** [v.min()] of a non-empty array is its least element, [v.max()] its
    greatest. *)
Lemma np_min_spec (l : list Q) :
  l <> [] ->
  exists m, np_min l = inr m /\ In m l /\ Forall (Qle m) l.
Proof.
  destruct l as [|q l]; [congruence|]. intros _.
  exists (foldl Qmin q l). split; [reflexivity | apply foldl_Qmin_spec].
Qed.

Lemma np_max_spec (l : list Q) :
  l <> [] ->
  exists m, np_max l = inr m /\ In m l /\ Forall (fun v => (v <= m)%Q) l.
Proof.
  destruct l as [|q l]; [congruence|]. intros _.
  exists (foldl Qmax q l). split; [reflexivity | apply foldl_Qmax_spec].
Qed.

Lemma np_diff_cons2 (a b : Q) (l : list Q) :
  np_diff (a :: b :: l) = (b - a)%Q :: np_diff (b :: l).
Proof. reflexivity. Qed.

Lemma np_diff_snoc (l : list Q) (x : Q) :
  np_diff (l ++ [x])
  = np_diff l ++ match last l with Some y => [(x - y)%Q] | None => [] end.
Proof.
  induction l as [|a [|b l] IH]; [reflexivity | reflexivity |].
  change ((a :: b :: l) ++ [x]) with (a :: b :: (l ++ [x])).
  rewrite !np_diff_cons2.
  change (b :: l ++ [x]) with ((b :: l) ++ [x]).
  rewrite IH. reflexivity.
Qed.

Lemma ascending_reverse (l : list Q) :
  strictly_ascending l -> strictly_descending (reverse l).
Proof.
  unfold strictly_ascending, strictly_descending.
  induction l as [|a [|b l] IH]; intros Hasc;
    [constructor | constructor |].
  rewrite np_diff_cons2 in Hasc. apply Forall_cons in Hasc as [Hab Hrest].
  rewrite (reverse_cons _ a), np_diff_snoc, last_reverse. cbn [head].
  apply Forall_app. split; [now apply IH|].
  repeat constructor. lra.
Qed.

Lemma any_nonneg_false (l : list Q) :
  Forall (fun d => (d < 0)%Q) l -> any_nonneg l = false.
Proof.
  unfold any_nonneg. induction 1 as [|d l Hd _ IH]; [reflexivity|].
  cbn [existsb]. rewrite IH, orb_false_r.
  destruct (Qle_bool 0 d) eqn:E; [|reflexivity].
  apply Qle_bool_iff in E. lra.
Qed.

Lemma any_nonneg_Exists (l : list Q) :
  any_nonneg l = true <-> Exists (fun d => (0 <= d)%Q) l.
Proof.
  unfold any_nonneg. rewrite existsb_exists, Exists_exists.
  split; intros (d & Hin & Hd); exists d.
  - split; [now apply list_elem_of_In | now apply Qle_bool_iff].
  - split; [now apply list_elem_of_In | now apply Qle_bool_iff].
Qed.

(** A strictly monotonic axis is strictly descending once oriented. *)
Lemma oriented_descending (ys : list Q) :
  strictly_monotonic ys -> strictly_descending (oriented ys).
Proof.
  unfold oriented. intros [Hasc|Hdesc].
  - destruct (any_nonneg (np_diff ys)) eqn:E; [now apply ascending_reverse|].
    unfold strictly_ascending, strictly_descending in *.
    destruct (np_diff ys) as [|d l]; [constructor|].
    apply Forall_cons in Hasc as [Hd _]. unfold any_nonneg in E.
    cbn [existsb] in E. apply orb_false_elim in E as [E _].
    assert (Qle_bool 0 d = true) by (apply Qle_bool_iff; lra). congruence.
  - now rewrite (any_nonneg_false _ Hdesc).
Qed.

Lemma oriented_length (ys : list Q) : length (oriented ys) = length ys.
Proof.
  unfold oriented. destruct (any_nonneg _); [apply length_reverse | reflexivity].
Qed.

Lemma oriented_In (ys : list Q) (v : Q) : In v (oriented ys) <-> In v ys.
Proof.
  unfold oriented. destruct (any_nonneg _); [|reflexivity].
  rewrite <- !list_elem_of_In. apply elem_of_reverse.
Qed.

Lemma oriented_Forall (P : Q -> Prop) (ys : list Q) :
  Forall P (oriented ys) <-> Forall P ys.
Proof.
  rewrite !List.Forall_forall. split; intros Hall v Hv; apply Hall.
  - exact (proj2 (oriented_In ys v) Hv).
  - exact (proj1 (oriented_In ys v) Hv).
Qed.

Section PlotProperties.
Context {libs : Libs}.

(** [plot] on a grid with the two named axes, each of at least two
    samples, and with at most one of colormap and surface URL. *)
Lemma plot_body_ok (args : PlotArgs) (a : DataArray) (xs ys : list Q) :
  both_configured args = false ->
  x_dim args <> y_dim args ->
  coord_values (x_dim args) a = inr xs ->
  coord_values (y_dim args) a = inr ys ->
  (2 <= length xs)%nat -> (2 <= length ys)%nat ->
  exists a' xl xr yl yu,
    coord_values "x" a' = inr xs
    /\ coord_values "y" a' = inr (oriented ys)
    /\ np_min xs = inr xl /\ np_max xs = inr xr
    /\ np_min (oriented ys) = inr yl /\ np_max (oriented ys) = inr yu
    /\ plot_body args a =
       inr {| da := a';
              window_url := [];
              tile_width := 256;
              factor := 10;
              offset := 10000;
              vmin := arg_vmin args;
              vmax := arg_vmax args;
              surface_url := arg_surface_url args;
              colormap := arg_colormap args;
              tiles := ∅;
              x_left := xl;
              x_right := xr;
              y_lower := yl;
              y_upper := yu;
              dx := (xr - xl) / inject_Z (Z.of_nat (length xs) - 1);
              dy := (yu - yl) / inject_Z (Z.of_nat (length (oriented ys)) - 1);
              l := mkLayer None None None;
              base_url := None;
              host := None;
              trace := [EnsureFuture "async_wait_for_window_url"];
              debug_output := plot_debug_output args |}.
Proof.
  intros Hcfg Hxy Hx Hy Hnx Hny.
  destruct (rename_xy args a xs ys Hxy Hx Hy) as (a1 & Hren & Hx1 & Hy1).
  assert (Hsel : exists a2,
             (if any_nonneg (np_diff ys) then sel_reversed "y" a1 else inr a1)
             = inr a2
             /\ coord_values "x" a2 = inr xs
             /\ coord_values "y" a2 = inr (oriented ys)).
  { unfold oriented. destruct (any_nonneg (np_diff ys)).
    - apply sel_reversed_y; assumption.
    - exists a1. auto. }
  destruct Hsel as (a2 & Hsel & Hx2 & Hy2).
  destruct (np_min_spec xs) as (xl & Hxl & _); [now destruct xs|].
  destruct (np_max_spec xs) as (xr & Hxr & _); [now destruct xs|].
  pose proof (oriented_length ys) as Hlen.
  destruct (np_min_spec (oriented ys)) as (yl & Hyl & _);
    [destruct (oriented ys); [cbn in Hlen; lia | discriminate]|].
  destruct (np_max_spec (oriented ys)) as (yu & Hyu & _);
    [destruct (oriented ys); [cbn in Hlen; lia | discriminate]|].
  exists a2, xl, xr, yl, yu.
  repeat (split; [assumption|]).
  unfold plot_body. rewrite Hcfg, Hren. cbn [bindR].
  rewrite Hy1. cbn [bindR]. rewrite Hsel. cbn [bindR].
  rewrite Hy2, Hx2. cbn [bindR].
  rewrite Hxl, Hxr, Hyl, Hyu. cbn [bindR].
  unfold py_truediv.
  rewrite !decide_False by lia. reflexivity.
Qed.

(** Past the renaming and the orientation, [plot] is left with the
    reductions and the two divisions. *)
Lemma plot_body_axes (args : PlotArgs) (a : DataArray) (xs ys : list Q) :
  both_configured args = false ->
  x_dim args <> y_dim args ->
  coord_values (x_dim args) a = inr xs ->
  coord_values (y_dim args) a = inr ys ->
  exists f : Q -> Q -> Q -> Q -> Q -> Q -> TerrainMap,
    plot_body args a =
    (ok xl <- np_min xs;
     ok xr <- np_max xs;
     ok yl <- np_min (oriented ys);
     ok yu <- np_max (oriented ys);
     ok ddx <- py_truediv (xr - xl) (Z.of_nat (length xs) - 1);
     ok ddy <- py_truediv (yu - yl) (Z.of_nat (length (oriented ys)) - 1);
     inr (f xl xr yl yu ddx ddy)).
Proof.
  intros Hcfg Hxy Hx Hy.
  destruct (rename_xy args a xs ys Hxy Hx Hy) as (a1 & Hren & Hx1 & Hy1).
  assert (Hsel : exists a2,
             (if any_nonneg (np_diff ys) then sel_reversed "y" a1 else inr a1)
             = inr a2
             /\ coord_values "x" a2 = inr xs
             /\ coord_values "y" a2 = inr (oriented ys)).
  { unfold oriented. destruct (any_nonneg (np_diff ys)).
    - apply sel_reversed_y; assumption.
    - exists a1. auto. }
  destruct Hsel as (a2 & Hsel & Hx2 & Hy2).
  eexists (fun xl xr yl yu ddx ddy => mkTerrainMap a2 _ _ _ _ _ _ _ _ _ xl xr yl yu ddx ddy _ _ _ _ _).
  unfold plot_body. rewrite Hcfg, Hren. cbn [bindR].
  rewrite Hy1. cbn [bindR]. rewrite Hsel. cbn [bindR].
  rewrite Hy2, Hx2. cbn [bindR]. reflexivity.
Qed.

Lemma rename_err (names : gmap string string) (a : DataArray) (e : exn) :
  rename names a = inl e -> e = rename_error \/ e = rename_conflict.
Proof.
  unfold rename. destruct (da_dims a) as [d0 d1].
  destruct (decide _); [destruct (decide _)|]; intros [= <-]; auto.
Qed.

Lemma coord_values_err (name : string) (a : DataArray) (e : exn) :
  coord_values name a = inl e -> e = AttributeError name.
Proof.
  unfold coord_values. destruct (da_dims a) as [d0 d1].
  repeat destruct (decide _); congruence.
Qed.

Lemma sel_reversed_err (name : string) (a : DataArray) (e : exn) :
  sel_reversed name a = inl e -> e = KeyError.
Proof.
  unfold sel_reversed. destruct (da_dims a) as [d0 d1].
  repeat destruct (decide _); congruence.
Qed.

Lemma np_min_err (l : list Q) (e : exn) : np_min l = inl e -> e = empty_reduction.
Proof. destruct l; cbn; congruence. Qed.

Lemma np_max_err (l : list Q) (e : exn) : np_max l = inl e -> e = empty_reduction.
Proof. destruct l; cbn; congruence. Qed.

Lemma py_truediv_err (q : Q) (n : Z) (e : exn) :
  py_truediv q n = inl e -> e = ZeroDivisionError.
Proof. unfold py_truediv. destruct (decide _); congruence. Qed.

Ltac bind_case H E :=
  match type of H with
  | bindR ?c _ = inl _ =>
      destruct c eqn:E; cbn [bindR] in H;
      [injection H as <- | clear E]
  end.

Lemma plot_body_errors (args : PlotArgs) (a : DataArray) (e : exn) :
  both_configured args = false ->
  plot_body args a = inl e -> axis_error e.
Proof.
  intros Hcfg Hp. unfold plot_body in Hp. rewrite Hcfg in Hp.
  unfold axis_error.
  bind_case Hp E; [apply rename_err in E; destruct E; auto 8|].
  bind_case Hp E; [apply coord_values_err in E; eauto 8|].
  bind_case Hp E.
  { destruct (any_nonneg _); [apply sel_reversed_err in E; auto 8 | discriminate]. }
  bind_case Hp E; [apply coord_values_err in E; eauto 8|].
  bind_case Hp E; [apply coord_values_err in E; eauto 8|].
  bind_case Hp E; [apply np_min_err in E; auto 8|].
  bind_case Hp E; [apply np_max_err in E; auto 8|].
  bind_case Hp E; [apply np_min_err in E; auto 8|].
  bind_case Hp E; [apply np_max_err in E; auto 8|].
  bind_case Hp E; [apply py_truediv_err in E; auto 8|].
  bind_case Hp E; [apply py_truediv_err in E; auto 8|].
  discriminate.
Qed.

(** The servers are started by [_start], once the URL of the window is
    known: in JupyterLab at [http://localhost:8888/lab] the example object
    starts the terrain server on port 8080 and hands the layer the
    decoder of the packing. *)
Example start_in_jupyterlab :
  let r := async_wait_for_window_url (chars "http://localhost:8888/lab")
                                     example_map in
  r.1 = inr tt
  /\ trace r.2 = [EnsureFuture "async_wait_for_window_url";
                  StartServer 8080 TerrainHandler]
  /\ host r.2 = Some (chars "localhost")
  /\ l_elevation_decoder (l r.2) = Some (elevation_decoder 10 10000)
  /\ l_elevation_data (l r.2)
     = Some (chars "http://localhost:8080/{z}/{x}/{y}.png")
  /\ l_texture (l r.2) = None.
Proof. vm_compute. repeat split. Qed.

Lemma plot_starts_no_server (args : PlotArgs) (a : DataArray) :
  List.filter is_start_server (plot args a).1 = [].
Proof. reflexivity. Qed.

(** C4. On a grid with the two named axes, each of at least two samples,
    and a strictly monotonic y-axis, [plot] returns an object whose
    y-axis is the original one reversed when some consecutive difference
    is [>= 0] and the original one otherwise; the axis is then strictly
    descending, and [y_lower] and [y_upper] are the least and the
    greatest of the original y values. *)
Theorem plot_orients_y_axis (args : PlotArgs) (a : DataArray) (xs ys : list Q) :
  both_configured args = false ->
  x_dim args <> y_dim args ->
  coord_values (x_dim args) a = inr xs ->
  coord_values (y_dim args) a = inr ys ->
  (2 <= length xs)%nat -> (2 <= length ys)%nat ->
  strictly_monotonic ys ->
  exists s ys',
    (plot args a).2 = inr (Some s)
    /\ coord_values "y" (da s) = inr ys'
    /\ (Exists (fun d => (0 <= d)%Q) (np_diff ys) -> ys' = reverse ys)
    /\ (~ Exists (fun d => (0 <= d)%Q) (np_diff ys) -> ys' = ys)
    /\ strictly_descending ys'
    /\ In (y_lower s) ys /\ Forall (Qle (y_lower s)) ys
    /\ In (y_upper s) ys /\ Forall (fun v => (v <= y_upper s)%Q) ys.
Proof.
  intros Hcfg Hxy Hx Hy Hnx Hny Hmono.
  destruct (plot_body_ok args a xs ys Hcfg Hxy Hx Hy Hnx Hny)
    as (a' & xl & xr & yl & yu & Hx' & Hy' & _ & _ & Hyl & Hyu & Hplot).
  eexists. exists (oriented ys).
  split; [cbn [plot snd]; rewrite Hplot; reflexivity|]. cbn [da y_lower y_upper].
  split; [exact Hy'|].
  assert (Hne : oriented ys <> []).
  { pose proof (oriented_length ys). destruct (oriented ys); [cbn in *; lia | discriminate]. }
  destruct (np_min_spec _ Hne) as (m & Hm & Hmin & Hmall).
  destruct (np_max_spec _ Hne) as (M' & HM & Hmax & HMall).
  assert (m = yl) as -> by congruence.
  assert (M' = yu) as -> by congruence.
  split; [|split; [|split; [now apply oriented_descending|]]].
  - intros Hex. apply any_nonneg_Exists in Hex. unfold oriented. now rewrite Hex.
  - intros Hex. unfold oriented.
    destruct (any_nonneg (np_diff ys)) eqn:E; [|reflexivity].
    exfalso. now apply Hex, any_nonneg_Exists.
  - split; [now apply oriented_In|].
    split; [now apply (oriented_Forall (Qle yl))|].
    split; [now apply oriented_In|].
    now apply (oriented_Forall (fun v => (v <= yu)%Q)).
Qed.

End PlotProperties.

(** The grid of the specification's example: latitudes 10, 20, 30. *)
Lemma plot_orients_y_axis_witness :
  exists s ys',
    (@plot example_libs example_args example_grid).2 = inr (Some s)
    /\ coord_values "y" (da s) = inr ys'
    /\ (Exists (fun d => (0 <= d)%Q) (np_diff [10; 20; 30]%Q)
        -> ys' = reverse [10; 20; 30]%Q)
    /\ (~ Exists (fun d => (0 <= d)%Q) (np_diff [10; 20; 30]%Q)
        -> ys' = [10; 20; 30]%Q)
    /\ strictly_descending ys'
    /\ In (y_lower s) [10; 20; 30]%Q /\ Forall (Qle (y_lower s)) [10; 20; 30]%Q
    /\ In (y_upper s) [10; 20; 30]%Q
    /\ Forall (fun v => (v <= y_upper s)%Q) [10; 20; 30]%Q.
Proof.
  apply (@plot_orients_y_axis example_libs example_args example_grid
           [0; 1]%Q [10; 20; 30]%Q).
  - reflexivity.
  - discriminate.
  - reflexivity.
  - reflexivity.
  - cbn. lia.
  - cbn. lia.
  - left. repeat constructor.
Defined.

Ltac bind_ok H E :=
  match type of H with
  | bindR ?c _ = inr _ =>
      destruct c eqn:E; cbn [bindR] in H; [discriminate H|]
  end.

Section PlotErrors.
Context {libs : Libs}.

Lemma rename_absent (args : PlotArgs) (a : DataArray) :
  ~ has_dim (x_dim args) a \/ ~ has_dim (y_dim args) a ->
  rename (<[x_dim args := "x"%string]> (<[y_dim args := "y"%string]> ∅)) a
  = inl rename_error.
Proof.
  unfold has_dim, rename. destruct (da_dims a) as [d0 d1]. cbn [fst snd].
  intros Habs. destruct (decide _) as [Hsub|_]; [|reflexivity].
  exfalso.
  assert (Hx : x_dim args ∈ ({[d0; d1]} : gset string)).
  { apply Hsub. rewrite dom_insert_L. apply elem_of_union_l, elem_of_singleton.
    reflexivity. }
  assert (Hy : y_dim args ∈ ({[d0; d1]} : gset string)).
  { apply Hsub. rewrite !dom_insert_L.
    apply elem_of_union_r, elem_of_union_l, elem_of_singleton. reflexivity. }
  apply elem_of_union in Hx as [Hx|Hx]; apply elem_of_singleton in Hx;
    apply elem_of_union in Hy as [Hy|Hy]; apply elem_of_singleton in Hy;
    destruct Habs as [Habs|Habs]; apply Habs; auto.
Qed.

(** An object [plot] returns is the one its block has set up. *)
Lemma plot_returns_body (args : PlotArgs) (a : DataArray) (s : TerrainMap) :
  (plot args a).2 = inr (Some s) -> plot_body args a = inr s.
Proof.
  cbn [plot snd]. destruct (plot_body args a) as [e|s']; cbn [leave_block].
  - destruct (suppresses _ e); discriminate.
  - now intros [= ->].
Qed.

(** What [plot] fixes in the object it returns. *)
Lemma plot_body_fields (args : PlotArgs) (a : DataArray) (s : TerrainMap) :
  plot_body args a = inr s ->
  tile_width s = 256 /\ factor s = 10 /\ offset s = 10000 /\ tiles s = ∅
  /\ vmin s = arg_vmin args /\ vmax s = arg_vmax args
  /\ colormap s = arg_colormap args
  /\ trace s = [EnsureFuture "async_wait_for_window_url"]
  /\ debug_output s = plot_debug_output args
  /\ l s = mkLayer None None None.
Proof.
  unfold plot_body. intros Hp.
  destruct (both_configured args); [discriminate Hp|].
  bind_ok Hp E1. bind_ok Hp E2. bind_ok Hp E3. bind_ok Hp E4. bind_ok Hp E5.
  bind_ok Hp E6. bind_ok Hp E7. bind_ok Hp E8. bind_ok Hp E9. bind_ok Hp E10.
  bind_ok Hp E11.
  injection Hp as <-. repeat split.
Qed.

(** What the block of [plot] raises on a grid without one of the named
    axes, or with an axis of fewer than two samples. *)
Lemma plot_body_bad_axes (args : PlotArgs) (a : DataArray) :
  both_configured args = false ->
  (~ has_dim (x_dim args) a \/ ~ has_dim (y_dim args) a ->
   plot_body args a = inl rename_error)
  /\ (forall xs ys,
        x_dim args <> y_dim args ->
        coord_values (x_dim args) a = inr xs ->
        coord_values (y_dim args) a = inr ys ->
        (xs = [] \/ ys = [] -> plot_body args a = inl empty_reduction)
        /\ (xs <> [] -> ys <> [] ->
            (length xs = 1 \/ length ys = 1)%nat ->
            plot_body args a = inl ZeroDivisionError)).
Proof.
  intros Hcfg. split.
  - intros Habs. unfold plot_body.
    now rewrite Hcfg, (rename_absent _ _ Habs).
  - intros xs ys Hxy Hx Hy.
    destruct (plot_body_axes args a xs ys Hcfg Hxy Hx Hy) as (f & ->).
    pose proof (oriented_length ys) as Hlen.
    split.
    + intros [-> | ->]; [reflexivity|].
      destruct xs as [|x xs]; [reflexivity|]. reflexivity.
    + intros Hxs Hys Hone.
      destruct (np_min_spec xs Hxs) as (xl & -> & _).
      destruct (np_max_spec xs Hxs) as (xr & -> & _).
      assert (Hne : oriented ys <> []).
      { destruct (oriented ys); [destruct ys; [congruence | cbn in Hlen; lia]
                                | discriminate]. }
      destruct (np_min_spec _ Hne) as (yl & -> & _).
      destruct (np_max_spec _ Hne) as (yu & -> & _).
      cbn [bindR]. unfold py_truediv. rewrite Hlen.
      destruct (decide (Z.of_nat (length xs) - 1 = 0)) as [_|Nx]; [reflexivity|].
      cbn [bindR].
      destruct (decide (Z.of_nat (length ys) - 1 = 0)) as [_|Ny]; [reflexivity|].
      lia.
Qed.

(** [plot] passes on an exception of its block unless its context
    manager swallows it, and then it returns [None]. *)
Lemma plot_of_raising_body (args : PlotArgs) (a : DataArray) (e : exn) :
  plot_body args a = inl e ->
  (plot args a).2
  = if suppresses (plot_debug_output args) e then inr None else inl e.
Proof. intros Hb. cbn [plot snd]. rewrite Hb. reflexivity. Qed.

(** C8. With at most one of colormap and surface URL configured (the
    configuration check comes first), the block of [plot] raises when
    one of the two named axes is not a dimension of the grid, and it
    raises when an axis has fewer than two samples: the reduction of an
    empty axis raises, and for an axis of one sample the division of the
    extent by [size - 1] raises [ZeroDivisionError].  [plot] itself
    raises that exception when its context manager [debug_output] does
    not swallow it, and returns [None] when it does.  Up to there [plot]
    has started no server. *)
Theorem plot_fails_on_bad_axes (args : PlotArgs) (a : DataArray) :
  both_configured args = false ->
  (~ has_dim (x_dim args) a \/ ~ has_dim (y_dim args) a ->
   plot_body args a = inl rename_error
   /\ (plot args a).2
      = if suppresses (plot_debug_output args) rename_error
        then inr None else inl rename_error)
  /\ (forall xs ys,
        x_dim args <> y_dim args ->
        coord_values (x_dim args) a = inr xs ->
        coord_values (y_dim args) a = inr ys ->
        (xs = [] \/ ys = [] ->
         plot_body args a = inl empty_reduction
         /\ (plot args a).2
            = if suppresses (plot_debug_output args) empty_reduction
              then inr None else inl empty_reduction)
        /\ (xs <> [] -> ys <> [] ->
            (length xs = 1 \/ length ys = 1)%nat ->
            plot_body args a = inl ZeroDivisionError
            /\ (plot args a).2
               = if suppresses (plot_debug_output args) ZeroDivisionError
                 then inr None else inl ZeroDivisionError))
  /\ List.filter is_start_server (plot args a).1 = [].
Proof.
  intros Hcfg.
  destruct (plot_body_bad_axes args a Hcfg) as [Habsent Hsize].
  split; [|split; [|reflexivity]].
  - intros Habs. specialize (Habsent Habs).
    split; [exact Habsent | now apply plot_of_raising_body].
  - intros xs ys Hxy Hx Hy.
    destruct (Hsize xs ys Hxy Hx Hy) as [Hempty Hone]. split.
    + intros Hnil. specialize (Hempty Hnil).
      split; [exact Hempty | now apply plot_of_raising_body].
    + intros Hxs Hys Hlen. specialize (Hone Hxs Hys Hlen).
      split; [exact Hone | now apply plot_of_raising_body].
Qed.

(** C9. The block of [plot] raises the error about colormap and surface
    URL exactly when both are configured; [plot] itself raises it
    exactly when both are configured and its context manager
    [debug_output] does not swallow it, and whenever the context manager
    swallows what the block raises [plot] returns [None].  [plot] has
    started no server when it returns or raises: the servers are started
    by [_start]. *)
Theorem plot_configuration_error (args : PlotArgs) (a : DataArray) :
  (plot_body args a = inl colormap_and_surface_url
   <-> (arg_colormap args <> None /\ arg_surface_url args <> None))
  /\ ((plot args a).2 = inl colormap_and_surface_url
      <-> (arg_colormap args <> None /\ arg_surface_url args <> None
           /\ suppresses (plot_debug_output args) colormap_and_surface_url
              = false))
  /\ ((plot args a).2 = inr None
      <-> exists e, plot_body args a = inl e
                    /\ suppresses (plot_debug_output args) e = true)
  /\ List.filter is_start_server (plot args a).1 = []
  /\ (forall s, (plot args a).2 = inr (Some s) ->
                List.filter is_start_server (trace s) = []
                /\ l s = mkLayer None None None).
Proof.
  assert (Hb : both_configured args = true
               <-> arg_colormap args <> None /\ arg_surface_url args <> None).
  { unfold both_configured.
    destruct (arg_colormap args), (arg_surface_url args); split;
      first [ discriminate | intros [? ?]; congruence
            | intros _; split; discriminate | reflexivity ]. }
  assert (Hbody : plot_body args a = inl colormap_and_surface_url
                  <-> both_configured args = true).
  { split.
    - intros Hp. destruct (both_configured args) eqn:Hcfg; [reflexivity|].
      apply (plot_body_errors _ _ _ Hcfg) in Hp.
      destruct Hp as [Hp|[Hp|[[n Hp]|[Hp|[Hp|Hp]]]]]; discriminate Hp.
    - intros Hcfg. unfold plot_body. now rewrite Hcfg. }
  split; [now rewrite Hbody|].
  split; [|split; [|split; [reflexivity|]]].
  - cbn [plot snd]. split.
    + destruct (plot_body args a) as [e|s] eqn:Hp; cbn [leave_block];
        [|discriminate].
      destruct (suppresses _ e) eqn:Hs; [discriminate|].
      intros [= ->].
      destruct (proj1 Hb (proj1 Hbody eq_refl)) as [Hc Hu].
      repeat split; assumption.
    + intros (Hc & Hu & Hs).
      rewrite (proj2 Hbody (proj2 Hb (conj Hc Hu))).
      cbn [leave_block]. now rewrite Hs.
  - cbn [plot snd]. split.
    + destruct (plot_body args a) as [e|s]; cbn [leave_block];
        [|discriminate].
      destruct (suppresses _ e) eqn:Hs; [|discriminate].
      intros _. exists e. split; [reflexivity | exact Hs].
    + intros (e & -> & Hs). cbn [leave_block]. now rewrite Hs.
  - intros s Hplot. apply plot_returns_body in Hplot.
    destruct (plot_body_fields _ _ _ Hplot)
      as (_ & _ & _ & _ & _ & _ & _ & -> & _ & ->).
    split; reflexivity.
Qed.

End PlotErrors.

(** A grid whose y-axis has the single sample 10, and the same grid
    asked for an axis ["lat"] it does not have, in plain Python, where
    [Output()] swallows nothing. *)
Lemma plot_fails_on_bad_axes_witness :
  (@plot example_libs example_args single_row_grid).2 = inl ZeroDivisionError
  /\ (@plot example_libs (mkPlotArgs "x" "lat" None None None None None)
        single_row_grid).2
     = inl rename_error.
Proof.
  destruct (@plot_fails_on_bad_axes example_libs example_args single_row_grid
              eq_refl) as (_ & Hsize & _).
  destruct (@plot_fails_on_bad_axes example_libs
              (mkPlotArgs "x" "lat" None None None None None)
              single_row_grid eq_refl) as (Habsent & _).
  split.
  - apply (Hsize [0; 1]%Q [10%Q]).
    + discriminate.
    + reflexivity.
    + reflexivity.
    + discriminate.
    + discriminate.
    + right. reflexivity.
  - apply Habsent. right. intros [H|H]; discriminate H.
Defined.

(** In an IPython kernel the same two calls of [plot] raise nothing:
    the widget [Output()] swallows the exception and [plot] returns
    [None]. *)
Lemma plot_bad_axes_swallowed :
  (@plot kernel_libs example_args single_row_grid).2 = inr None
  /\ (@plot kernel_libs (mkPlotArgs "x" "lat" None None None None None)
        single_row_grid).2
     = inr None.
Proof.
  destruct (@plot_body_bad_axes kernel_libs example_args single_row_grid
              eq_refl) as (_ & Hsize).
  destruct (@plot_body_bad_axes kernel_libs
              (mkPlotArgs "x" "lat" None None None None None)
              single_row_grid eq_refl) as (Habsent & _).
  split.
  - rewrite (plot_of_raising_body _ _ ZeroDivisionError); [reflexivity|].
    apply (Hsize [0; 1]%Q [10%Q]); try discriminate; try reflexivity.
    right. reflexivity.
  - rewrite (plot_of_raising_body _ _ rename_error); [reflexivity|].
    apply Habsent. right. intros [H|H]; discriminate H.
Qed.

(** In an IPython kernel [plot] with both a colormap and a surface URL
    raises nothing and returns [None]. *)
Lemma plot_configuration_error_swallowed :
  both_configured
    (mkPlotArgs "x" "y" (Some grey) None None (Some example_url) None) = true
  /\ (@plot kernel_libs
        (mkPlotArgs "x" "y" (Some grey) None None (Some example_url) None)
        example_grid).2
     = inr None.
Proof. split; reflexivity. Qed.

(** ** [coarsen] *)

Section CoarsenProperties.
Context {libs : Libs}.

(** C5. For a tile width other than zero, [coarsen] computes the block
    factors [wx = nx // (2 * tile_width)] and [wy = ny // (2 * tile_width)]
    and never raises: it returns the block average over the windows of
    the factors greater than one, or the array it was given when the
    block-averaging raises.  When both factors are at most one, and so
    whenever both extents are at most [2 * tile_width], it returns the
    array it was given, block-averaging over no window being the
    identity where it succeeds. *)
Theorem coarsen_never_raises (array : DataArray) (tile_width : Z) :
  tile_width <> 0 ->
  let ny := (da_shape array).1 in
  let nx := (da_shape array).2 in
  let wx := nx / (2 * tile_width) in
  let wy := ny / (2 * tile_width) in
  exists out,
    coarsen array tile_width = inr out
    /\ (xr_coarsen_mean (coarsen_dim wx wy) array = inr out
        \/ (exists e, xr_coarsen_mean (coarsen_dim wx wy) array = inl e)
           /\ out = array)
    /\ ((forall a', xr_coarsen_mean ∅ array = inr a' -> a' = array) ->
        (wx <= 1 -> wy <= 1 -> out = array)
        /\ (nx <= 2 * tile_width -> ny <= 2 * tile_width -> out = array)).
Proof.
  intros Htw ny nx wx wy. unfold coarsen.
  destruct (da_shape array) as [ny' nx'] eqn:Hshape.
  cbn [fst snd] in *. subst ny nx.
  unfold py_floordiv. rewrite !decide_False by lia. cbn [bindR].
  replace (tile_width * 2) with (2 * tile_width) by lia. fold wx wy.
  assert (Hnoop : wx <= 1 -> wy <= 1 -> coarsen_dim wx wy = ∅).
  { intros Hx Hy. unfold coarsen_dim. now rewrite !decide_False by lia. }
  assert (Hsmall : nx' <= 2 * tile_width -> ny' <= 2 * tile_width ->
                   wx <= 1 /\ wy <= 1).
  { unfold da_shape in Hshape. injection Hshape as <- <-. intros Hx Hy.
    assert (0 < 2 * tile_width) by lia.
    subst wx wy. split.
    - apply Z.lt_succ_r, Z.div_lt_upper_bound; lia.
    - apply Z.lt_succ_r, Z.div_lt_upper_bound; lia. }
  destruct (xr_coarsen_mean (coarsen_dim wx wy) array) as [e|out] eqn:Hmean.
  - exists array. split; [reflexivity|]. split; [right; eauto|].
    intros _. split; reflexivity.
  - exists out. split; [reflexivity|]. split; [now left|].
    intros Hid. split.
    + intros Hx Hy. apply Hid. now rewrite <- (Hnoop Hx Hy).
    + intros Hx Hy. destruct (Hsmall Hx Hy) as [Hwx Hwy].
      apply Hid. now rewrite <- (Hnoop Hwx Hwy).
Qed.
End CoarsenProperties.

(** The example grid, of 3 x 2 values, comes back as it is. *)
Lemma coarsen_never_raises_witness :
  exists out,
    @coarsen example_libs example_grid 256 = inr out
    /\ out = example_grid.
Proof.
  destruct (@coarsen_never_raises example_libs example_grid 256)
    as (out & Hout & _ & Hnoop); [lia|].
  exists out. split; [exact Hout|].
  apply Hnoop.
  - intros a' Ha'. discriminate Ha'.
  - vm_compute. discriminate.
  - vm_compute. discriminate.
Defined.

(** ** Malformed requests *)

Lemma split_on_nonempty (sep : ascii) (l : list ascii) : split_on sep l <> [].
Proof.
  destruct l as [|c l]; cbn [split_on]; [discriminate|].
  destruct (decide (c = sep)); [discriminate|].
  destruct (split_on sep l); discriminate.
Qed.

Lemma split_on_app (sep : ascii) (a b : list ascii) :
  split_on sep (a ++ sep :: b) = split_on sep a ++ split_on sep b.
Proof.
  induction a as [|c a IH].
  - cbn [app split_on]. now rewrite decide_True by reflexivity.
  - change ((c :: a) ++ sep :: b) with (c :: (a ++ sep :: b)).
    cbn [split_on]. rewrite IH.
    destruct (decide (c = sep)); [reflexivity|].
    pose proof (split_on_nonempty sep a) as Hne.
    destruct (split_on sep a) as [|w ws]; [congruence | reflexivity].
Qed.

Lemma split_on_absent (sep : ascii) (w : list ascii) :
  ~ In sep w -> split_on sep w = [w].
Proof.
  induction w as [|c w IH]; intros Hnot; [reflexivity|].
  cbn [split_on].
  destruct (decide (c = sep)) as [->|_]; [exfalso; apply Hnot; now left|].
  rewrite IH; [reflexivity|]. intros Hin. apply Hnot. now right.
Qed.

Lemma last3_app {A : Type} (l : list A) (a b c : A) :
  last3 (l ++ [a; b; c]) = [a; b; c].
Proof.
  unfold last3. rewrite length_app. cbn [length].
  replace (length l + 3 - 3)%nat with (length l) by lia.
  now rewrite drop_app_length.
Qed.

(** A path that begins with the separator adds its segments to those
    of what stands before it. *)
Lemma split_on_app_path (sep : ascii) (a b : list ascii) (ws : list (list ascii)) :
  split_on sep b = [] :: ws ->
  ws <> [] ->
  split_on sep (a ++ b) = split_on sep a ++ ws.
Proof.
  destruct b as [|c b]; cbn [split_on].
  - intros [= <-] Hne. congruence.
  - destruct (decide (c = sep)) as [->|Hc].
    + intros [= <-] _. apply split_on_app.
    + destruct (split_on sep b); discriminate.
Qed.

(** On a path the route matches, the handlers read the three variables
    of the route. *)
Lemma route_match_parse (origin path zs xs ys : list ascii) :
  route_match path = Some (zs, xs, ys) ->
  parse_request (origin ++ path)
  = (ok z <- py_int zs; ok x <- py_int xs; ok y <- py_int ys; inr (z, x, y)).
Proof.
  unfold route_match.
  destruct (split_on "/"%char path) as [|w0 [|w1 [|w2 [|w3 [|w4 ws]]]]] eqn:Hsplit;
    try destruct w0 as [|c w0]; try (intros Hnone; discriminate Hnone).
  destruct (_ && _) eqn:Hok; [|intros Hnone; discriminate Hnone].
  intros [= <- <- <-].
  unfold parse_request.
  rewrite (split_on_app_path _ origin path _ Hsplit) by discriminate.
  now rewrite last3_app.
Qed.

Section RequestProperties.
Context {libs : Libs}.

Lemma handlers_on_invalid_literal (url : list ascii) (s : TerrainMap) :
  parse_request url = inl invalid_literal ->
  terrain_handler url s
  = (if suppresses (debug_output s) invalid_literal
     then inr None else inl invalid_literal, s)
  /\ surface_handler url s
     = (if suppresses (debug_output s) invalid_literal
        then inr None else inl invalid_literal, s).
Proof.
  intros Hparse.
  unfold terrain_handler, surface_handler, with_debug_output,
    terrain_handler_body, surface_handler_body, bindM, liftR.
  rewrite Hparse. split; reflexivity.
Qed.

Lemma route_match_invalid (origin path zs xs ys : list ascii) :
  route_match path = Some (zs, xs, ys) ->
  int_of_chars zs = None \/ int_of_chars xs = None \/ int_of_chars ys = None ->
  parse_request (origin ++ path) = inl invalid_literal.
Proof.
  intros Hroute Hbad. rewrite (route_match_parse _ _ _ _ _ Hroute).
  unfold py_int.
  destruct (int_of_chars zs) as [z|]; [|reflexivity].
  destruct (int_of_chars xs) as [x|]; [|reflexivity].
  destruct (int_of_chars ys) as [y|]; [|reflexivity].
  destruct Hbad as [H|[H|H]]; discriminate H.
Qed.

End RequestProperties.



(** ** The surface encoder *)

Section SurfaceProperties.
Context {libs : Libs}.

Lemma ensure_vmin_run (s : TerrainMap) (lo : fval) :
  da_min (da s) = inr lo -> ensure_vmin s = (inr tt, with_vmin lo s).
Proof.
  intros Hlo. unfold ensure_vmin, with_vmin, bindM, getM, modifyM, liftR, retM.
  destruct (vmin s); [reflexivity|]. cbn [da log_event]. now rewrite Hlo.
Qed.

Lemma ensure_vmax_run (s : TerrainMap) (hi : fval) :
  da_max (da s) = inr hi -> ensure_vmax s = (inr tt, with_vmax hi s).
Proof.
  intros Hhi. unfold ensure_vmax, with_vmax, bindM, getM, modifyM, liftR, retM.
  destruct (vmax s); [reflexivity|]. cbn [da log_event]. now rewrite Hhi.
Qed.

Lemma reductions_app (t1 t2 : list event) :
  reductions (t1 ++ t2) = (reductions t1 + reductions t2)%nat.
Proof. unfold reductions. now rewrite List.filter_app, length_app. Qed.

Lemma reductions_allowed (s : TerrainMap) (extra : list event) :
  is_Some (vmin s) -> is_Some (vmax s) ->
  Forall (event_allowed s) extra -> reductions extra = 0%nat.
Proof.
  intros [lo Hlo] [hi Hhi]. induction 1 as [|e extra He _ IH]; [reflexivity|].
  unfold reductions in *. cbn [List.filter].
  destruct e; cbn [is_reduction]; try exact IH; cbn in He; congruence.
Qed.

(** Division by a zero range yields no finite value. *)
Lemma normalize_degenerate (v : fval) (p q : Q) :
  (p == q)%Q -> non_finite (fdiv (fsub v (Fin p)) (fsub (Fin q) (Fin p))).
Proof.
  intros Hpq. unfold non_finite, fsub. cbn [fneg fadd].
  assert (Hz : Qeq_bool (q + - p) 0 = true) by (apply Qeq_bool_iff; lra).
  destruct v as [r| | |]; cbn [fadd fdiv]; rewrite ?Hz.
  - unfold inf_signed. destruct (r + - p ?= 0)%Q; cbn [fneg]; auto.
  - destruct (Qle_bool 0 (q + - p)); auto.
  - destruct (Qle_bool 0 (q + - p)); auto.
  - auto.
Qed.

Lemma with_range_facts (s : TerrainMap) (lo0 hi0 : fval) :
  let sb := with_vmax hi0 (with_vmin lo0 s) in
  da sb = da s /\ tile_width sb = tile_width s
  /\ dx sb = dx s /\ dy sb = dy s
  /\ tiles sb = tiles s /\ colormap sb = colormap s
  /\ vmin sb = Some (default lo0 (vmin s))
  /\ vmax sb = Some (default hi0 (vmax s))
  /\ reductions (trace sb)
     = (reductions (trace s) + missing (vmin s)
        + missing (vmax s))%nat.
Proof.
  unfold with_vmax, with_vmin.
  destruct (vmin s) as [lo|] eqn:Elo; destruct (vmax s) as [hi|] eqn:Ehi;
    cbn [vmax set_vmin log_event]; rewrite ?Ehi;
    cbn [da tile_width dx dy tiles colormap vmin vmax trace set_vmin set_vmax
         log_event default missing];
    rewrite ?Elo, ?Ehi, ?reductions_app;
    repeat split; cbn; lia.
Qed.

Lemma get_tile_returns (s : TerrainMap) (x y z : Z) (tile : Raster) :
  tiles s !! (x, y, z) = Some tile
  \/ tiles s !! (x, y, z) = None /\ tile_pipeline s x y z = inr tile ->
  exists s', get_tile x y z s = (inr (Some tile), s')
    /\ vmin s' = vmin s /\ vmax s' = vmax s /\ colormap s' = colormap s
    /\ factor s' = factor s /\ offset s' = offset s
    /\ tile_width s' = tile_width s
    /\ reductions (trace s') = reductions (trace s).
Proof.
  intros [Hhit|[Hmiss Hpipe]].
  - exists s. rewrite (get_tile_hit _ _ _ _ _ Hhit). repeat split.
  - eexists. rewrite (get_tile_miss _ _ _ _ Hmiss), Hpipe.
    split; [reflexivity|]. repeat split.
    cbn [trace set_tiles log_event]. rewrite reductions_app. cbn. lia.
Qed.

(** C7, as the code has it.  On a request the surface handler accepts,
    for a grid that is not empty and a tile that is cached or that the
    pipeline yields: [vmin] and [vmax], where unset, are set from the
    least and the greatest value of the whole grid, one reduction each,
    and stay as they are under whatever is served afterwards, with no
    further reduction; and the handler returns the image of the colormap
    on [(tile - vmin) / (vmax - vmin)] in a 200 response, also when
    [vmin] equals [vmax], where every normalized value is NaN or
    infinite. *)
Theorem surface_handler_range (s : TerrainMap) (url : list ascii) (z x y : Z)
    (lo0 hi0 : fval) (cm : Colormap) (tile : Raster) :
  parse_request url = inr (z, x, y) ->
  da_min (da s) = inr lo0 -> da_max (da s) = inr hi0 ->
  colormap s = Some cm ->
  tiles s !! (x, y, z) = Some tile
  \/ tiles s !! (x, y, z) = None /\ tile_pipeline s x y z = inr tile ->
  let lo := default lo0 (vmin s) in
  let hi := default hi0 (vmax s) in
  let s1 := (surface_handler url s).2 in
  (surface_handler url s).1
  = inr (Some (mkResponse (colorize cm (normalize lo hi tile)) 200 "image/png"))
  /\ vmin s1 = Some lo /\ vmax s1 = Some hi
  /\ reductions (trace s1)
     = (reductions (trace s) + missing (vmin s)
        + missing (vmax s))%nat
  /\ (forall s2, served_from s1 s2 ->
        vmin s2 = Some lo /\ vmax s2 = Some hi
        /\ reductions (trace s2) = reductions (trace s1))
  /\ (forall p q, lo = Fin p -> hi = Fin q -> (p == q)%Q ->
        Forall (Forall non_finite) (normalize lo hi tile)).
Proof.
  intros Hparse Hlo Hhi Hcm Htile lo hi s1.
  destruct (with_range_facts s lo0 hi0)
    as (Hda & Htw & Hdx & Hdy & Htiles & Hcmb & Hvmin & Hvmax & Hred).
  set (sb := with_vmax hi0 (with_vmin lo0 s)) in *.
  assert (Hda_a : da (with_vmin lo0 s) = da s)
    by (unfold with_vmin; destruct (vmin s); reflexivity).
  destruct (get_tile_returns sb x y z tile)
    as (sc & Hget & Hvmin_c & Hvmax_c & Hcm_c & _ & _ & _ & Hred_c).
  { rewrite Htiles.
    rewrite (tile_pipeline_ext s sb) by assumption. exact Htile. }
  assert (Hrun : surface_handler url s
                 = (inr (Some (png_response
                                 (colorize cm (normalize lo hi tile)))), sc)).
  { unfold surface_handler, with_debug_output, surface_handler_body.
    unfold bindM at 1, liftR at 1. rewrite Hparse.
    unfold bindM at 1. rewrite (ensure_vmin_run _ _ Hlo).
    unfold bindM at 1. rewrite (ensure_vmax_run (with_vmin lo0 s) hi0)
      by (now rewrite Hda_a).
    fold sb. unfold bindM at 1. rewrite Hget.
    unfold bindM, getM, liftR, retM. cbn [from_option].
    rewrite Hvmin_c, Hvmax_c, Hcm_c, Hvmin, Hvmax, Hcmb, Hcm. reflexivity. }
  subst s1. rewrite Hrun. cbn [fst snd].
  assert (Hs1min : vmin sc = Some lo) by (now rewrite Hvmin_c).
  assert (Hs1max : vmax sc = Some hi) by (now rewrite Hvmax_c).
  split; [reflexivity|].
  split; [exact Hs1min|]. split; [exact Hs1max|].
  split; [now rewrite Hred_c|].
  split.
  - intros s2 Hserved. apply served_from_frame in Hserved.
    split; [now apply (fr_vmin _ _ Hserved)|].
    split; [now apply (fr_vmax _ _ Hserved)|].
    destruct (fr_trace _ _ Hserved) as (extra & -> & Hall).
    rewrite reductions_app, (reductions_allowed sc extra); eauto.
  - intros p q -> -> Hpq. unfold normalize, arr_map.
    apply Forall_map, Forall_forall. intros row _.
    apply Forall_map, Forall_forall. intros v _.
    now apply normalize_degenerate.
Qed.
End SurfaceProperties.

(** The grid of constant elevation 500: the first surface request
    computes [vmin = vmax = 500]. *)
Lemma surface_handler_range_witness :
  (@surface_handler example_libs example_url example_surface_map).1
  = inr (Some (mkResponse
                 (colorize grey (normalize (Fin 500) (Fin 500)
                                           (fill_raster 256 256 (Fin 500))))
                 200 "image/png"))
  /\ vmin (@surface_handler example_libs example_url example_surface_map).2
     = Some (Fin 500)
  /\ vmax (@surface_handler example_libs example_url example_surface_map).2
     = Some (Fin 500).
Proof.
  destruct (@surface_handler_range example_libs example_surface_map example_url
              0 0 0 (Fin 500) (Fin 500) grey (fill_raster 256 256 (Fin 500)))
    as (Hresp & Hmin & Hmax & _).
  - reflexivity.
  - reflexivity.
  - reflexivity.
  - reflexivity.
  - right. split; [reflexivity | vm_compute; reflexivity].
  - repeat split; assumption.
Defined.

(** C7 as stated fails: with [vmin = vmax = 500] the surface handler
    raises nothing and answers with an image, here a black one. *)
Lemma degenerate_range_no_error :
  vmin (@surface_handler example_libs example_url example_surface_map).2
  = vmax (@surface_handler example_libs example_url example_surface_map).2
  /\ (@surface_handler example_libs example_url example_surface_map).1
     = inr (Some (mkResponse (replicate 256 (replicate 256 (0, 0, 0)))
                    200 "image/png")).
Proof. vm_compute. split; reflexivity. Qed.

(** ** The shape of tiles *)

Lemma has_shape_arr_map {A B : Type} (f : A -> B) (h w : Z) (a : list (list A)) :
  has_shape h w a -> has_shape h w (arr_map f a).
Proof.
  unfold has_shape, arr_map. intros [Hh Hw]. split.
  - now rewrite length_map.
  - apply Forall_map. eapply Forall_impl; [exact Hw|].
    intros row Hrow. cbn. now rewrite length_map.
Qed.

Lemma arr_map_compose {A B C : Type} (f : A -> B) (g : B -> C)
    (a : list (list A)) :
  arr_map g (arr_map f a) = arr_map (fun v => g (f v)) a.
Proof.
  unfold arr_map. rewrite map_map. apply map_ext. intros row. apply map_map.
Qed.

Lemma broadcast_rows_id {A : Type} (w : Z) (a : list (list A)) :
  Forall (fun row => Z.of_nat (length row) = w) a -> broadcast_rows w a = inr a.
Proof.
  induction 1 as [|row a Hrow _ IH]; [reflexivity|].
  cbn [broadcast_rows]. unfold broadcast_row.
  rewrite (decide_True _ _ Hrow). cbn [bindR]. now rewrite IH.
Qed.

Lemma assign_channel_id {A : Type} (h w : Z) (a : list (list A)) :
  has_shape h w a -> assign_channel h w a = inr a.
Proof.
  intros [Hh Hw]. unfold assign_channel.
  rewrite (broadcast_rows_id _ _ Hw). cbn [bindR].
  now rewrite (decide_True _ _ Hh).
Qed.

Lemma stack_rgb_map {A : Type} (f g h : A -> Z) (a : list (list A)) :
  stack_rgb (arr_map f a) (arr_map g a) (arr_map h a)
  = arr_map (fun v => (f v, g v, h v)) a.
Proof.
  unfold stack_rgb, arr_map.
  induction a as [|row a IH]; [reflexivity|].
  cbn [map zip_with]. f_equal; [|exact IH].
  clear IH. induction row as [|v row IH]; [reflexivity|].
  cbn [map zip_with fst snd]. now f_equal.
Qed.

Section ShapeProperties.
Context {libs : Libs}.
Hypothesis reproject_shape : reproject_fills_shape libs.

Lemma tile_pipeline_shape (s : TerrainMap) (x y z : Z) (r : Raster) :
  tile_pipeline s x y z = inr r -> has_shape (tile_width s) (tile_width s) r.
Proof.
  unfold tile_pipeline, reproject. intros Hp.
  bind_ok Hp E1. bind_ok Hp E2. bind_ok Hp E3. bind_ok Hp E4. bind_ok Hp E5.
  bind_ok Hp E6. bind_ok Hp E7.
  injection Hp as <-. eapply reproject_shape. exact E7.
Qed.

Lemma get_tile_inv (s : TerrainMap) (x y z : Z) (r : Raster) :
  (get_tile x y z s).1 = inr (Some r) ->
  tiles s !! (x, y, z) = Some r
  \/ tiles s !! (x, y, z) = None /\ tile_pipeline s x y z = inr r.
Proof.
  destruct (tiles s !! (x, y, z)) as [d|] eqn:E.
  - rewrite (get_tile_hit _ _ _ _ _ E). cbn. intros [= <-]. now left.
  - rewrite (get_tile_miss _ _ _ _ E).
    destruct (tile_pipeline s x y z) as [e|d]; cbn [fst leave_block].
    + destruct (suppresses _ e); discriminate.
    + intros [= <-]. now right.
Qed.

(** C10. Provided the reprojection of the library returns the shape it
    is asked for, every raster in the cache of a served object, and
    every raster [get_tile] returns, has 256 rows of 256 values; and for
    such a raster the terrain handler builds its 256 x 256 image of three
    channels, the packing of each value, and answers with it. *)
Theorem cached_tiles_have_tile_shape (args : PlotArgs) (a : DataArray)
    (s0 s : TerrainMap) :
  (plot args a).2 = inr (Some s0) ->
  served_from s0 s ->
  (forall k r, tiles s !! k = Some r -> has_shape 256 256 r)
  /\ (forall x y z r,
        (get_tile x y z s).1 = inr (Some r) ->
        has_shape 256 256 r
        /\ tiles (get_tile x y z s).2 !! (x, y, z) = Some r
        /\ forall url,
             parse_request url = inr (z, x, y) ->
             (terrain_handler url s).1
             = inr (Some (mkResponse (arr_map (encode_pixel 10 10000) r)
                                     200 "image/png"))
             /\ has_shape 256 256 (arr_map (encode_pixel 10 10000) r)).
Proof.
  intros Hplot Hserved. apply plot_returns_body in Hplot.
  destruct (plot_body_fields _ _ _ Hplot) as (Htw0 & Hf0 & Ho0 & Ht0 & _).
  apply served_from_frame in Hserved.
  assert (Htw : tile_width s = 256) by (now rewrite (fr_tile_width _ _ Hserved)).
  assert (Hf : factor s = 10) by (now rewrite (fr_factor _ _ Hserved)).
  assert (Ho : offset s = 10000) by (now rewrite (fr_offset _ _ Hserved)).
  assert (Hcache : forall k r, tiles s !! k = Some r -> has_shape 256 256 r).
  { intros [[x y] z] r Hk.
    rewrite <- Htw0. apply (tile_pipeline_shape s0 x y z).
    apply (fr_tiles_new _ _ Hserved); [|exact Hk].
    rewrite Ht0. apply lookup_empty. }
  split; [exact Hcache|].
  intros x y z r Hget. apply get_tile_inv in Hget.
  assert (Hshape : has_shape 256 256 r).
  { destruct Hget as [Hhit|[_ Hpipe]]; [now apply (Hcache (x, y, z))|].
    rewrite <- Htw. now apply (tile_pipeline_shape s x y z). }
  destruct (get_tile_returns s x y z r Hget)
    as (s' & Hrun & _ & _ & _ & Hf' & Ho' & Htw' & _).
  split; [exact Hshape|]. split.
  { rewrite Hrun. cbn [snd].
    destruct Hget as [Hhit|[Hmiss Hpipe]].
    - rewrite (get_tile_hit _ _ _ _ _ Hhit) in Hrun. now injection Hrun as <-.
    - rewrite (get_tile_miss _ _ _ _ Hmiss), Hpipe in Hrun.
      injection Hrun as <-. apply lookup_insert_eq. }
  intros url Hparse. split; [|now apply has_shape_arr_map].
  unfold terrain_handler, with_debug_output, terrain_handler_body.
  unfold bindM at 1, liftR at 1. rewrite Hparse.
  unfold bindM at 1. rewrite Hrun.
  unfold bindM, getM, liftR, retM. cbn [from_option].
  rewrite Hf', Ho', Htw', Hf, Ho, Htw.
  rewrite !assign_channel_id by (repeat apply has_shape_arr_map; exact Hshape).
  rewrite !arr_map_compose, stack_rgb_map. reflexivity.
Qed.
End ShapeProperties.

Lemma plot_example :
  (@plot example_libs example_args example_grid).2 = inr (Some example_map)
  /\ (@plot example_libs (mkPlotArgs "x" "y" (Some grey) None None None None)
        example_grid).2
     = inr (Some example_surface_map).
Proof. split; reflexivity. Qed.

Lemma example_libs_shape : reproject_fills_shape example_libs.
Proof.
  intros src crs transform h w resampling dst. cbn.
  destruct (decide _) as [[Hh Hw]|_]; [|discriminate].
  intros [= <-]. cbn [da_values]. unfold has_shape, fill_raster. split.
  - rewrite length_replicate. lia.
  - apply Forall_replicate. rewrite length_replicate. lia.
Qed.

(** The example object after a first call of [get_tile]: the tile of
    constant elevation 500 is in the cache, and the terrain handler
    answers with its packing. *)
Lemma cached_tiles_have_tile_shape_witness :
  has_shape 256 256 (fill_raster 256 256 (Fin 500))
  /\ (@terrain_handler example_libs example_terrain_url
        (@get_tile example_libs 0 0 0 example_map).2).1
     = inr (Some (mkResponse
                    (arr_map (encode_pixel 10 10000)
                             (fill_raster 256 256 (Fin 500)))
                    200 "image/png")).
Proof.
  destruct (@cached_tiles_have_tile_shape example_libs example_libs_shape
              example_args example_grid example_map
              (@get_tile example_libs 0 0 0 example_map).2)
    as [_ Hget].
  - reflexivity.
  - apply rtc_once. apply step_get_tile.
  - destruct (Hget 0 0 0 (fill_raster 256 256 (Fin 500)))
      as (Hshape & _ & Hterrain).
    + vm_compute. reflexivity.
    + split; [exact Hshape|].
      apply Hterrain. reflexivity.
Defined.

(** * Further properties of the code *)

(** ** The cache under serving *)

Section ServingProperties.
Context {libs : Libs}.

(** Serving never changes or removes a cached tile, it never touches
    the grid, its spacing, the tile width, the packing parameters or the
    colormap, and a tile that enters the cache is what the pipeline
    yields for its address. *)
Theorem serving_keeps_cache_and_grid (s s' : TerrainMap) :
  served_from s s' ->
  (forall k d, tiles s !! k = Some d -> tiles s' !! k = Some d)
  /\ (forall x y z d,
        tiles s !! (x, y, z) = None -> tiles s' !! (x, y, z) = Some d ->
        tile_pipeline s x y z = inr d)
  /\ da s' = da s /\ dx s' = dx s /\ dy s' = dy s
  /\ tile_width s' = tile_width s /\ factor s' = factor s
  /\ offset s' = offset s /\ colormap s' = colormap s.
Proof.
  intros Hserved. apply served_from_frame in Hserved.
  destruct Hserved. repeat split; assumption.
Qed.

(** A pipeline that raises is not cached: the block of [get_tile]
    raises the same exception, so [get_tile] raises it, or returns
    [None] where its context manager swallows it, and stores nothing;
    the next call for the address enters the pipeline again with the
    same outcome.  The terrain handler on such a request returns no
    response: it raises the exception of the pipeline, or, where that
    one is swallowed in [get_tile], the [TypeError] of [None + offset],
    unless this one is swallowed too and the handler returns [None]; the
    cache is as before. *)
Theorem get_tile_failure_not_cached (s : TerrainMap) (x y z : Z) (e : exn) :
  tiles s !! (x, y, z) = None ->
  tile_pipeline s x y z = inl e ->
  let r := get_tile x y z s in
  let r' := get_tile x y z r.2 in
  r.1 = (if suppresses (debug_output s) e then inr None else inl e)
  /\ tiles r.2 = tiles s
  /\ pipeline_runs (x, y, z) (trace r.2) = S (pipeline_runs (x, y, z) (trace s))
  /\ r'.1 = (if suppresses (debug_output s) e then inr None else inl e)
  /\ tiles r'.2 = tiles s
  /\ pipeline_runs (x, y, z) (trace r'.2)
     = S (S (pipeline_runs (x, y, z) (trace s)))
  /\ forall url, parse_request url = inr (z, x, y) ->
       (terrain_handler url s).1
       = (if suppresses (debug_output s) e
          then if suppresses (debug_output s) none_operand
               then inr None else inl none_operand
          else inl e)
       /\ tiles (terrain_handler url s).2 = tiles s.
Proof.
  intros Hmiss Hpipe r r'. subst r r'.
  rewrite (get_tile_miss _ _ _ _ Hmiss), Hpipe. cbn [fst snd leave_block].
  set (s1 := log_event (PipelineRun (x, y, z)) s).
  assert (Hmiss1 : tiles s1 !! (x, y, z) = None) by exact Hmiss.
  assert (Hpipe1 : tile_pipeline s1 x y z = inl e) by exact Hpipe.
  rewrite (get_tile_miss _ _ _ _ Hmiss1), Hpipe1. cbn [fst snd leave_block].
  assert (Hruns : forall t, pipeline_runs (x, y, z) (t ++ [PipelineRun (x, y, z)])
                            = S (pipeline_runs (x, y, z) t)).
  { intros t. rewrite pipeline_runs_app. unfold pipeline_runs at 2.
    cbn [List.filter is_run]. rewrite bool_decide_eq_true_2 by reflexivity.
    cbn [length]. lia. }
  split; [reflexivity|]. split; [reflexivity|]. split; [apply Hruns|].
  split; [reflexivity|]. split; [reflexivity|]. split.
  - subst s1. cbn [trace log_event]. now rewrite !Hruns.
  - intros url Hparse.
    assert (Hrun : terrain_handler url s
                   = (if suppresses (debug_output s) e
                      then if suppresses (debug_output s) none_operand
                           then inr None else inl none_operand
                      else inl e, s1)).
    { unfold terrain_handler, with_debug_output, terrain_handler_body.
      unfold bindM at 1, liftR at 1. rewrite Hparse.
      unfold bindM at 1. rewrite (get_tile_miss _ _ _ _ Hmiss), Hpipe.
      destruct (suppresses (debug_output s) e) eqn:Hs;
        cbv [bindM liftR from_option leave_block]; rewrite ?Hs; reflexivity. }
    rewrite Hrun. split; reflexivity.
Qed.
End ServingProperties.

Lemma serving_keeps_cache_and_grid_witness :
  (forall k d, tiles example_map !! k = Some d ->
               tiles (@get_tile example_libs 0 0 0 example_map).2 !! k = Some d)
  /\ da (@get_tile example_libs 0 0 0 example_map).2 = da example_map.
Proof.
  destruct (@serving_keeps_cache_and_grid example_libs example_map
              (@get_tile example_libs 0 0 0 example_map).2)
    as (Hold & _ & Hda & _).
  - apply rtc_once. apply step_get_tile.
  - split; assumption.
Defined.

(** In plain Python, with a selection that raises [KeyError]. *)
Lemma get_tile_failure_not_cached_witness :
  (@get_tile failing_libs 0 0 0 example_map).1 = inl KeyError
  /\ tiles (@get_tile failing_libs 0 0 0 example_map).2 = tiles example_map
  /\ (@terrain_handler failing_libs example_terrain_url example_map).1
     = inl KeyError.
Proof.
  destruct (@get_tile_failure_not_cached failing_libs example_map 0 0 0 KeyError)
    as (Herr & Htiles & _ & _ & _ & _ & Hhandler).
  - reflexivity.
  - reflexivity.
  - split; [exact Herr|]. split; [exact Htiles|].
    apply (Hhandler example_terrain_url). reflexivity.
Defined.

(** ** The elevation packing beyond its range *)

Lemma digits_recompose_mod (n : Z) :
  (n / 65536) mod 256 * 65536 + (n / 256) mod 256 * 256 + n mod 256
  = n mod 256 ^ 3.
Proof.
  assert (H3 : 256 ^ 3 = 256 * (256 * 256)) by reflexivity. rewrite H3.
  rewrite (Z.rem_mul_r n 256 (256 * 256)) by lia.
  rewrite (Z.rem_mul_r (n / 256) 256 256) by lia.
  rewrite Z.div_div by lia.
  change (256 * 256) with 65536. lia.
Qed.

Lemma to_uint8_byte (v : fval) : 0 <= to_uint8 v < 256.
Proof.
  unfold to_uint8. destruct v as [q| | |]; try lia.
  destruct (decide _); [apply Z.mod_pos_bound|]; lia.
Qed.

(** The channels of a finite scaled value are the base-256 digits of
    its floor. *)
Lemma pack_scaled_digits (v : Q) :
  pack_scaled (Fin v)
  = ((Qfloor v / 65536) mod 256, (Qfloor v / 256) mod 256, Qfloor v mod 256).
Proof.
  unfold pack_scaled.
  rewrite !ffloordiv_Fin by lia.
  rewrite !to_uint8_fmod, !Qfloor_Z. reflexivity.
Qed.

(** Whatever the elevation, finite or not, each channel of its packing
    is a byte; and the three channels of a scaled value [v >= 0] (the
    value of [data] after line 155) are the base-256 digits of the floor
    of [v] reduced modulo [256^3]: scaled values of [256^3] and more
    wrap around. *)
Theorem encode_pixel_wraps (v : Q) :
  (0 <= v)%Q ->
  (forall (factor offset : Z) (e : fval),
     let '(r, g, b) := encode_pixel factor offset e in
     0 <= r < 256 /\ 0 <= g < 256 /\ 0 <= b < 256)
  /\ (let '(r, g, b) := pack_scaled (Fin v) in
      r * 65536 + g * 256 + b = Qfloor v mod 256 ^ 3).
Proof.
  intros _. split.
  - intros factor offset e. unfold encode_pixel.
    repeat split; apply to_uint8_byte.
  - rewrite pack_scaled_digits. apply digits_recompose_mod.
Qed.

(** The scaled value [256^3 + 513.5] is packed as 513 is. *)
Lemma encode_pixel_wraps_witness :
  pack_scaled (Fin (33555459 # 2)) = (0, 2, 1)
  /\ 0 * 65536 + 2 * 256 + 1 = Qfloor (33555459 # 2) mod 256 ^ 3.
Proof.
  destruct (encode_pixel_wraps (33555459 # 2)) as [_ Hdigits].
  - discriminate.
  - split; [reflexivity | exact Hdigits].
Defined.

(** The decoder applied to the packing of an elevation in range gives
    the floor of the scaled value, scaled back. *)
Lemma decode_encode_floor (factor offset : Z) (e : Q) :
  0 < factor ->
  (0 <= (e + inject_Z offset) * inject_Z factor)%Q ->
  ((e + inject_Z offset) * inject_Z factor < inject_Z (256 ^ 3))%Q ->
  (decode_pixel (elevation_decoder factor offset)
                (encode_pixel factor offset (Fin e))
   == inject_Z (Qfloor ((e + inject_Z offset) * inject_Z factor))
      / inject_Z factor - inject_Z offset)%Q.
Proof.
  intros Hf Hlo Hhi. rewrite encode_pixel_digits.
  set (v := ((e + inject_Z offset) * inject_Z factor)%Q) in *.
  set (n := Qfloor v).
  assert (HfQ : (0 < inject_Z factor)%Q) by (rewrite (Zlt_Qlt 0) in Hf; exact Hf).
  pose proof (Qfloor_le v) as Hfl. fold n in Hfl.
  assert (Hn : 0 <= n < 256 ^ 3).
  { split.
    - replace 0 with (Qfloor 0) by reflexivity. now apply Qfloor_resp_le.
    - rewrite Zlt_Qlt. eapply Qle_lt_trans; eassumption. }
  pose proof (digits_recompose n Hn) as Hrec.
  unfold decode_pixel, elevation_decoder. cbn [rScaler gScaler bScaler dec_offset].
  rewrite <- Hrec at 4. rewrite !inject_Z_plus, !inject_Z_mult.
  change (inject_Z 65536) with 65536%Q. change (inject_Z 256) with 256%Q.
  field. lra.
Qed.

(** A scaled value that is an integer of [0, 256^3) is packed without
    loss: its three channels recompose to it, so that two such values
    with the same channels are equal. *)
Theorem pack_scaled_lossless (n m : Z) :
  0 <= n < 256 ^ 3 ->
  0 <= m < 256 ^ 3 ->
  (let '(r, g, b) := pack_scaled (of_int n) in r * 65536 + g * 256 + b = n)
  /\ (pack_scaled (of_int n) = pack_scaled (of_int m) -> n = m).
Proof.
  intros Hn Hm.
  assert (Hrec : forall k, 0 <= k < 256 ^ 3 ->
            let '(r, g, b) := pack_scaled (of_int k) in
            r * 65536 + g * 256 + b = k).
  { intros k Hk. unfold of_int. rewrite pack_scaled_digits, Qfloor_Z.
    now apply digits_recompose. }
  split; [now apply Hrec|].
  intros Heq. pose proof (Hrec n Hn) as Hrn. pose proof (Hrec m Hm) as Hrm.
  rewrite Heq in Hrn.
  destruct (pack_scaled (of_int m)) as [[r g] b]. congruence.
Qed.

Lemma pack_scaled_lossless_witness :
  pack_scaled (of_int 112345) = (1, 182, 217)
  /\ 1 * 65536 + 182 * 256 + 217 = 112345.
Proof.
  destruct (pack_scaled_lossless 112345 112345) as [Hrec _].
  - vm_compute. split; [discriminate | reflexivity].
  - vm_compute. split; [discriminate | reflexivity].
  - split; [reflexivity | exact Hrec].
Defined.

(** Within the range the packing keeps the order of elevations: of two
    elevations the lower one decodes to the lower or the same value. *)
Theorem decode_encode_monotone (factor offset : Z) (e1 e2 : Q) :
  0 < factor ->
  (0 <= (e1 + inject_Z offset) * inject_Z factor)%Q ->
  ((e2 + inject_Z offset) * inject_Z factor < inject_Z (256 ^ 3))%Q ->
  (e1 <= e2)%Q ->
  (decode_pixel (elevation_decoder factor offset)
                (encode_pixel factor offset (Fin e1))
   <= decode_pixel (elevation_decoder factor offset)
                   (encode_pixel factor offset (Fin e2)))%Q.
Proof.
  intros Hf Hlo Hhi Hle.
  assert (HfQ : (0 < inject_Z factor)%Q) by (rewrite (Zlt_Qlt 0) in Hf; exact Hf).
  assert (Hv : ((e1 + inject_Z offset) * inject_Z factor
                <= (e2 + inject_Z offset) * inject_Z factor)%Q).
  { apply Qmult_le_compat_r; lra. }
  assert (Hlo2 : (0 <= (e2 + inject_Z offset) * inject_Z factor)%Q) by lra.
  assert (Hhi1 : ((e1 + inject_Z offset) * inject_Z factor < inject_Z (256 ^ 3))%Q)
    by lra.
  rewrite (decode_encode_floor factor offset e1 Hf Hlo Hhi1).
  rewrite (decode_encode_floor factor offset e2 Hf Hlo2 Hhi).
  apply Qplus_le_compat; [|apply Qle_refl].
  apply Qmult_le_compat_r.
  - rewrite <- Zle_Qle. now apply Qfloor_resp_le.
  - apply Qlt_le_weak, Qinv_lt_0_compat, HfQ.
Qed.

Lemma decode_encode_monotone_witness :
  (decode_pixel (elevation_decoder 10 10000) (encode_pixel 10 10000 (Fin 100))
   <= decode_pixel (elevation_decoder 10 10000)
                   (encode_pixel 10 10000 (Fin (2001 # 20))))%Q.
Proof.
  apply (decode_encode_monotone 10 10000 100 (2001 # 20)).
  - lia.
  - vm_compute. discriminate.
  - vm_compute. reflexivity.
  - vm_compute. discriminate.
Defined.

(** ** The two handlers on one cache *)

Section HandlerProperties.
Context {libs : Libs}.

(** The object a terrain request leaves is the one its call of
    [get_tile] leaves, also when the assembly of the image raises. *)
Lemma terrain_handler_state (url : list ascii) (s : TerrainMap) :
  (terrain_handler url s).2
  = match parse_request url with
    | inl _ => s
    | inr (z, x, y) => (get_tile x y z s).2
    end.
Proof.
  unfold terrain_handler, with_debug_output, terrain_handler_body.
  unfold bindM at 1, liftR at 1.
  destruct (parse_request url) as [e|[[z x] y]]; [reflexivity|].
  unfold bindM at 1.
  destruct (get_tile x y z s) as [[e|[r|]] s']; [reflexivity| |reflexivity].
  unfold bindM, getM, liftR, retM. cbn [snd from_option].
  repeat (destruct (assign_channel _ _ _)); reflexivity.
Qed.

Lemma get_tile_keeps_range (x y z : Z) (s : TerrainMap) :
  vmin (get_tile x y z s).2 = vmin s
  /\ vmax (get_tile x y z s).2 = vmax s
  /\ reductions (trace (get_tile x y z s).2) = reductions (trace s).
Proof.
  destruct (tiles s !! (x, y, z)) as [d|] eqn:E.
  - rewrite (get_tile_hit _ _ _ _ _ E). repeat split.
  - rewrite (get_tile_miss _ _ _ _ E).
    destruct (tile_pipeline s x y z); cbn [snd vmin vmax trace set_tiles log_event];
      rewrite reductions_app; repeat split; cbn; lia.
Qed.

(** A terrain request never computes the minimum or the maximum of the
    grid and leaves [vmin] and [vmax] as they are. *)
Theorem terrain_handler_no_reduction (url : list ascii) (s : TerrainMap) :
  vmin (terrain_handler url s).2 = vmin s
  /\ vmax (terrain_handler url s).2 = vmax s
  /\ reductions (trace (terrain_handler url s).2) = reductions (trace s).
Proof.
  rewrite terrain_handler_state.
  destruct (parse_request url) as [e|[[z x] y]]; [repeat split|].
  apply get_tile_keeps_range.
Qed.

Lemma surface_handler_run (s : TerrainMap) (url : list ascii) (z x y : Z)
    (lo0 hi0 : fval) (cm : Colormap) (tile : Raster) :
  parse_request url = inr (z, x, y) ->
  da_min (da s) = inr lo0 -> da_max (da s) = inr hi0 ->
  colormap s = Some cm ->
  tiles s !! (x, y, z) = Some tile
  \/ tiles s !! (x, y, z) = None /\ tile_pipeline s x y z = inr tile ->
  exists sc,
    surface_handler url s
    = (inr (Some (png_response
                    (colorize cm (normalize (default lo0 (vmin s))
                                            (default hi0 (vmax s)) tile)))),
       sc)
    /\ get_tile x y z (with_vmax hi0 (with_vmin lo0 s)) = (inr (Some tile), sc).
Proof.
  intros Hparse Hlo Hhi Hcm Htile.
  destruct (with_range_facts s lo0 hi0)
    as (Hda & Htw & Hdx & Hdy & Htiles & Hcmb & Hvmin & Hvmax & Hred).
  set (sb := with_vmax hi0 (with_vmin lo0 s)) in *.
  assert (Hda_a : da (with_vmin lo0 s) = da s)
    by (unfold with_vmin; destruct (vmin s); reflexivity).
  destruct (get_tile_returns sb x y z tile)
    as (sc & Hget & Hvmin_c & Hvmax_c & Hcm_c & _).
  { rewrite Htiles.
    rewrite (tile_pipeline_ext s sb) by assumption. exact Htile. }
  exists sc. split; [|exact Hget].
  unfold surface_handler, with_debug_output, surface_handler_body.
  unfold bindM at 1, liftR at 1. rewrite Hparse.
  unfold bindM at 1. rewrite (ensure_vmin_run _ _ Hlo).
  unfold bindM at 1. rewrite (ensure_vmax_run (with_vmin lo0 s) hi0)
    by (now rewrite Hda_a).
  fold sb. unfold bindM at 1. rewrite Hget.
  unfold bindM, getM, liftR, retM. cbn [from_option].
  rewrite Hvmin_c, Hvmax_c, Hcm_c, Hvmin, Hvmax, Hcmb, Hcm. reflexivity.
Qed.

Lemma with_range_runs (s : TerrainMap) (lo0 hi0 : fval) (key : TileKey) :
  pipeline_runs key (trace (with_vmax hi0 (with_vmin lo0 s)))
  = pipeline_runs key (trace s).
Proof.
  unfold with_vmax, with_vmin.
  destruct (vmin s) as [lo|] eqn:Elo; destruct (vmax s) as [hi|] eqn:Ehi;
    cbn [vmax set_vmin log_event]; rewrite ?Ehi;
    cbn [trace set_vmin set_vmax log_event];
    rewrite ?pipeline_runs_app; cbn; lia.
Qed.

(** The cache is keyed by [(x, y, z)] whichever handler fills it: a
    terrain request for [/z/x/y.png] whose pipeline yields a tile stores
    it under [(x, y, z)], and a surface request for the same address is
    then answered from that tile without a further pipeline run. *)
Theorem handlers_share_cache (s : TerrainMap) (url_t url_s : list ascii)
    (z x y : Z) (lo0 hi0 : fval) (cm : Colormap) (tile : Raster) :
  parse_request url_t = inr (z, x, y) ->
  parse_request url_s = inr (z, x, y) ->
  tiles s !! (x, y, z) = None ->
  tile_pipeline s x y z = inr tile ->
  da_min (da s) = inr lo0 -> da_max (da s) = inr hi0 ->
  colormap s = Some cm ->
  let s1 := (terrain_handler url_t s).2 in
  tiles s1 = <[(x, y, z) := tile]> (tiles s)
  /\ (surface_handler url_s s1).1
     = inr (Some (mkResponse
                    (colorize cm (normalize (default lo0 (vmin s))
                                            (default hi0 (vmax s)) tile))
                    200 "image/png"))
  /\ pipeline_runs (x, y, z) (trace (surface_handler url_s s1).2)
     = S (pipeline_runs (x, y, z) (trace s)).
Proof.
  intros Hpt Hps Hmiss Hpipe Hlo Hhi Hcm s1.
  assert (Hs1 : s1 = set_tiles (<[(x, y, z) := tile]> (tiles s))
                               (log_event (PipelineRun (x, y, z)) s)).
  { subst s1. rewrite terrain_handler_state, Hpt.
    now rewrite (get_tile_miss _ _ _ _ Hmiss), Hpipe. }
  split; [now rewrite Hs1|].
  assert (Hhit : tiles s1 !! (x, y, z) = Some tile).
  { rewrite Hs1. apply lookup_insert_eq. }
  destruct (surface_handler_run s1 url_s z x y lo0 hi0 cm tile)
    as (sc & Hrun & Hget).
  { exact Hps. }
  { rewrite Hs1. exact Hlo. }
  { rewrite Hs1. exact Hhi. }
  { rewrite Hs1. exact Hcm. }
  { now left. }
  assert (Hsb : tiles (with_vmax hi0 (with_vmin lo0 s1)) !! (x, y, z) = Some tile).
  { destruct (with_range_facts s1 lo0 hi0) as (_ & _ & _ & _ & -> & _).
    exact Hhit. }
  rewrite (get_tile_hit _ _ _ _ _ Hsb) in Hget. injection Hget as <-.
  rewrite Hrun. cbn [fst snd]. split.
  - rewrite Hs1. reflexivity.
  - rewrite with_range_runs, Hs1. cbn [trace set_tiles log_event].
    rewrite pipeline_runs_app. unfold pipeline_runs at 2.
    cbn [List.filter is_run]. rewrite bool_decide_eq_true_2 by reflexivity.
    cbn [length]. lia.
Qed.
End HandlerProperties.

Lemma handlers_share_cache_witness :
  let s1 := (@terrain_handler example_libs example_terrain_url
               example_surface_map).2 in
  tiles s1 = <[(0, 0, 0) := fill_raster 256 256 (Fin 500)]> ∅
  /\ pipeline_runs (0, 0, 0)
       (trace (@surface_handler example_libs example_url s1).2) = 1%nat.
Proof.
  destruct (@handlers_share_cache example_libs example_surface_map
              example_terrain_url example_url 0 0 0 (Fin 500) (Fin 500) grey
              (fill_raster 256 256 (Fin 500)))
    as (Htiles & _ & Hruns).
  - reflexivity.
  - reflexivity.
  - reflexivity.
  - vm_compute. reflexivity.
  - reflexivity.
  - reflexivity.
  - reflexivity.
  - split; assumption.
Defined.

(** ** The path of a request *)

(** The handlers read [z], [x] and [y] off the last three segments of
    the URL, whatever comes before them, and drop the last four
    characters of the last segment without looking at them. *)
Theorem parse_request_segments (base zs xs ys ext : list ascii) :
  ~ In "/"%char zs -> ~ In "/"%char xs -> ~ In "/"%char (ys ++ ext) ->
  length ext = 4%nat ->
  parse_request (base ++ "/"%char :: zs ++ "/"%char :: xs
                      ++ "/"%char :: ys ++ ext)
  = (ok z <- py_int zs; ok x <- py_int xs; ok y <- py_int ys; inr (z, x, y)).
Proof.
  intros Hz Hx Hy Hext. unfold parse_request.
  rewrite !split_on_app.
  rewrite (split_on_absent _ zs Hz), (split_on_absent _ xs Hx),
    (split_on_absent _ (ys ++ ext) Hy).
  change ([zs] ++ [xs] ++ [ys ++ ext]) with [zs; xs; ys ++ ext].
  rewrite last3_app.
  assert (Hslice : py_slice_to (ys ++ ext) (-4) = ys).
  { unfold py_slice_to. rewrite decide_True by lia.
    rewrite length_app, Hext.
    replace (Z.to_nat (Z.of_nat (length ys + 4) + -4)) with (length ys) by lia.
    now rewrite take_app_length. }
  now rewrite Hslice.
Qed.

Lemma parse_request_segments_witness :
  parse_request (chars "http://localhost:8080" ++ "/"%char :: chars "3"
                   ++ "/"%char :: chars "2" ++ "/"%char :: chars "1"
                   ++ chars ".jpg")
  = inr (3, 2, 1).
Proof.
  rewrite (parse_request_segments (chars "http://localhost:8080")
             (chars "3") (chars "2") (chars "1") (chars ".jpg")).
  - reflexivity.
  - cbn. intros [H|[]]. discriminate H.
  - cbn. intros [H|[]]. discriminate H.
  - cbn. intros H. repeat (destruct H as [H|H]; [discriminate H|]). exact H.
  - reflexivity.
Defined.

(** ** The spacing of a uniform grid *)

Lemma uniform_axis_length (x0 d : Q) (n : nat) :
  length (uniform_axis x0 d n) = n.
Proof.
  revert x0. induction n as [|n IH]; intros x0; [reflexivity|].
  cbn [uniform_axis length]. now rewrite IH.
Qed.

(** Every coordinate of a uniform axis lies between its two ends. *)
Lemma uniform_axis_between (x0 d : Q) (n : nat) :
  Forall (fun v => if Qle_bool 0 d
                   then (x0 <= v /\ v <= x0 + inject_Z (Z.of_nat n - 1) * d)%Q
                   else (x0 + inject_Z (Z.of_nat n - 1) * d <= v /\ v <= x0)%Q)
         (uniform_axis x0 d n).
Proof.
  revert x0. induction n as [|n IH]; intros x0; [constructor|].
  cbn [uniform_axis].
  assert (Hn : (inject_Z (Z.of_nat (S n) - 1) == inject_Z (Z.of_nat n))%Q).
  { replace (Z.of_nat (S n) - 1) with (Z.of_nat n) by lia. reflexivity. }
  assert (Hn' : (inject_Z (Z.of_nat n - 1) == inject_Z (Z.of_nat n) - 1)%Q).
  { unfold Z.sub. rewrite inject_Z_plus, inject_Z_opp. reflexivity. }
  assert (Hpos : (0 <= inject_Z (Z.of_nat n))%Q).
  { rewrite <- (Zle_Qle 0). lia. }
  constructor.
  - destruct (Qle_bool 0 d) eqn:Ed.
    + apply Qle_bool_iff in Ed. rewrite Hn. split; [lra|].
      assert (0 <= inject_Z (Z.of_nat n) * d)%Q by (apply Qmult_le_0_compat; lra).
      lra.
    + assert (Hd : (d < 0)%Q).
      { apply Qnot_le_lt. intros Hle. apply Qle_bool_iff in Hle. congruence. }
      rewrite Hn. split; [|lra].
      assert (0 <= inject_Z (Z.of_nat n) * - d)%Q by (apply Qmult_le_0_compat; lra).
      lra.
  - eapply Forall_impl; [apply IH|]. intros v. cbn beta.
    destruct (Qle_bool 0 d) eqn:Ed.
    + apply Qle_bool_iff in Ed. rewrite Hn, Hn'. intros [H1 H2]. split; lra.
    + assert (Hd : (d < 0)%Q).
      { apply Qnot_le_lt. intros Hle. apply Qle_bool_iff in Hle. congruence. }
      rewrite Hn, Hn'. intros [H1 H2]. split; lra.
Qed.

(** Both ends of a uniform axis are among its coordinates. *)
Lemma uniform_axis_ends (x0 d : Q) (n : nat) :
  (1 <= n)%nat ->
  In x0 (uniform_axis x0 d n)
  /\ exists v, In v (uniform_axis x0 d n)
               /\ (v == x0 + inject_Z (Z.of_nat n - 1) * d)%Q.
Proof.
  intros Hn. split; [destruct n; [lia | now left]|].
  revert x0. induction n as [|n IH]; intros x0; [lia|].
  destruct n as [|n].
  - exists x0. split; [now left|].
    change (inject_Z (Z.of_nat 1 - 1)) with 0%Q. ring.
  - destruct (IH ltac:(lia) (x0 + d)%Q) as (v & Hin & Hv).
    exists v. split; [now right|]. rewrite Hv.
    replace (Z.of_nat (S (S n)) - 1) with (Z.of_nat (S n) - 1 + 1) by lia.
    rewrite inject_Z_plus. ring.
Qed.

(** The extent of a uniform axis, from any least and any greatest of its
    coordinates. *)
Lemma uniform_axis_extent (x0 d : Q) (n : nat) (lo hi : Q) :
  (1 <= n)%nat ->
  In lo (uniform_axis x0 d n) -> Forall (Qle lo) (uniform_axis x0 d n) ->
  In hi (uniform_axis x0 d n) ->
  Forall (fun v => (v <= hi)%Q) (uniform_axis x0 d n) ->
  (hi - lo == inject_Z (Z.of_nat n - 1) * Qabs d)%Q.
Proof.
  intros Hn Hlo_in Hlo_all Hhi_in Hhi_all.
  pose proof (uniform_axis_between x0 d n) as Hbetween.
  destruct (uniform_axis_ends x0 d n Hn) as (Hfirst & last & Hlast & Hlast_eq).
  rewrite List.Forall_forall in Hlo_all, Hhi_all, Hbetween.
  pose proof (Hlo_all _ Hfirst) as A1. pose proof (Hlo_all _ Hlast) as A2.
  pose proof (Hhi_all _ Hfirst) as B1. pose proof (Hhi_all _ Hlast) as B2.
  pose proof (Hbetween _ Hlo_in) as C1.
  pose proof (Hbetween _ Hhi_in) as C2.
  cbn beta in C1, C2. rewrite Hlast_eq in A2, B2.
  destruct (Qle_bool 0 d) eqn:Ed.
  - apply Qle_bool_iff in Ed. rewrite (Qabs_pos d Ed). lra.
  - assert (Hd : (d <= 0)%Q).
    { apply Qlt_le_weak, Qnot_le_lt. intros Hle. apply Qle_bool_iff in Hle.
      congruence. }
    rewrite (Qabs_neg d Hd). lra.
Qed.

Section SpacingProperties.
Context {libs : Libs}.


End SpacingProperties.


(** ** The values follow their latitudes *)

Section RowProperties.
Context {libs : Libs}.

Lemma plot_body_da (args : PlotArgs) (a : DataArray) (s : TerrainMap) :
  da_dims a = (y_dim args, x_dim args) ->
  x_dim args <> y_dim args ->
  plot_body args a = inr s ->
  da s = if any_nonneg (np_diff (da_coord0 a))
         then mkDataArray ("y"%string, "x"%string) (reverse (da_coord0 a))
                          (da_coord1 a) (reverse (da_values a))
         else mkDataArray ("y"%string, "x"%string) (da_coord0 a)
                          (da_coord1 a) (da_values a).
Proof.
  destruct a as [[d0 d1] c0 c1 v]. cbn [da_dims da_coord0 da_coord1 da_values].
  intros [= -> ->] Hxy Hp. unfold plot_body in Hp.
  destruct (both_configured args); [discriminate Hp|].
  unfold rename in Hp. cbn [da_dims da_coord0 da_coord1 da_values] in Hp.
  destruct (decide (dom _ ⊆ _)) as [_|_]; [|discriminate Hp].
  rewrite lookup_insert_ne, !lookup_insert_eq in Hp by exact Hxy.
  cbn [default from_option] in Hp. unfold id in Hp.
  rewrite decide_False in Hp by discriminate. cbn [bindR] in Hp.
  change (coord_values "y" (mkDataArray ("y"%string, "x"%string) c0 c1 v))
    with (inr c0 : result (list Q)) in Hp.
  cbn [bindR] in Hp.
  destruct (any_nonneg (np_diff c0)).
  - change (sel_reversed "y" (mkDataArray ("y"%string, "x"%string) c0 c1 v))
      with (inr (mkDataArray ("y"%string, "x"%string) (reverse c0) c1 (reverse v))
            : result DataArray) in Hp.
    cbv iota in Hp. cbn [bindR] in Hp.
    bind_ok Hp E1. bind_ok Hp E2. bind_ok Hp E3. bind_ok Hp E4. bind_ok Hp E5.
    bind_ok Hp E6. bind_ok Hp E7. bind_ok Hp E8.
    now injection Hp as <-.
  - cbv iota in Hp. cbn [bindR] in Hp.
    bind_ok Hp E1. bind_ok Hp E2. bind_ok Hp E3. bind_ok Hp E4. bind_ok Hp E5.
    bind_ok Hp E6. bind_ok Hp E7. bind_ok Hp E8.
    now injection Hp as <-.
Qed.

(** When [plot] turns the grid over, the rows of values are turned over
    with the latitudes: on a grid whose first dimension is the y-axis,
    the row that stood at a latitude still stands at it. *)
Theorem plot_keeps_rows_with_latitudes (args : PlotArgs) (a : DataArray)
    (s : TerrainMap) :
  da_dims a = (y_dim args, x_dim args) ->
  x_dim args <> y_dim args ->
  length (da_values a) = length (da_coord0 a) ->
  (plot args a).2 = inr (Some s) ->
  da_dims (da s) = ("y"%string, "x"%string)
  /\ da_coord1 (da s) = da_coord1 a
  /\ forall i, (i < length (da_coord0 a))%nat ->
       let j := if any_nonneg (np_diff (da_coord0 a))
                then (length (da_coord0 a) - S i)%nat else i in
       da_coord0 (da s) !! j = da_coord0 a !! i
       /\ da_values (da s) !! j = da_values a !! i.
Proof.
  intros Hdims Hxy Hlen Hplot. apply plot_returns_body in Hplot.
  rewrite (plot_body_da args a s Hdims Hxy Hplot).
  destruct (any_nonneg (np_diff (da_coord0 a)));
    cbn [da_dims da_coord0 da_coord1 da_values];
    (split; [reflexivity|]); (split; [reflexivity|]); intros i Hi; cbv zeta;
    [|split; reflexivity].
  rewrite !reverse_lookup by lia. rewrite Hlen.
  replace (length (da_coord0 a) - S (length (da_coord0 a) - S i))%nat with i by lia.
  split; reflexivity.
Qed.

End RowProperties.

Lemma plot_keeps_rows_with_latitudes_witness :
  da_dims (da example_map) = ("y"%string, "x"%string)
  /\ da_coord0 (da example_map) !! 2%nat = da_coord0 example_grid !! 0%nat.
Proof.
  destruct (@plot_keeps_rows_with_latitudes example_libs example_args
              example_grid example_map)
    as (Hdims & _ & Hrows).
  - reflexivity.
  - discriminate.
  - reflexivity.
  - reflexivity.
  - split; [exact Hdims|]. apply (Hrows 0%nat). cbn. lia.
Defined.

(** ** Starting the servers *)

Lemma is_prefix_app (p q : list ascii) : is_prefix p (p ++ q) = true.
Proof.
  induction p as [|c p IH]; [reflexivity|].
  cbn [app is_prefix]. now rewrite decide_True by reflexivity.
Qed.

Lemma endswith_app (a suffix : list ascii) : endswith (a ++ suffix) suffix = true.
Proof. unfold endswith. rewrite reverse_app. apply is_prefix_app. Qed.

Lemma py_slice_to_suffix (a suffix : list ascii) :
  suffix <> [] ->
  py_slice_to (a ++ suffix) (- Z.of_nat (length suffix)) = a.
Proof.
  intros Hne. unfold py_slice_to.
  assert (0 < length suffix)%nat by (destruct suffix; [congruence | cbn; lia]).
  rewrite decide_True by lia. rewrite length_app.
  replace (Z.to_nat (Z.of_nat (length a + length suffix)
                     + - Z.of_nat (length suffix))) with (length a) by lia.
  apply take_app_length.
Qed.

Lemma py_slice_to_prefix (a b : list ascii) :
  py_slice_to (a ++ b) (Z.of_nat (length a)) = a.
Proof.
  unfold py_slice_to. rewrite decide_False by lia.
  rewrite Nat2Z.id. apply take_app_length.
Qed.

Lemma rfind_char_absent (c : ascii) (l : list ascii) (i : Z) :
  ~ In c l -> rfind_from [c] l i = -1.
Proof.
  revert i. induction l as [|x l IH]; intros i Hnot; [reflexivity|].
  cbn [rfind_from]. rewrite IH by (intros Hin; apply Hnot; now right).
  rewrite decide_True by reflexivity. cbn [is_prefix].
  rewrite decide_False; [reflexivity|].
  intros ->. apply Hnot. now left.
Qed.

(** The last occurrence of a character that does not occur in what
    follows it. *)
Lemma rfind_char_last (c : ascii) (a rest : list ascii) (i : Z) :
  0 <= i -> ~ In c rest ->
  rfind_from [c] (a ++ c :: rest) i = i + Z.of_nat (length a).
Proof.
  intros Hi Hnot. revert i Hi. induction a as [|x a IH]; intros i Hi.
  - cbn [app rfind_from length]. rewrite (rfind_char_absent _ _ _ Hnot).
    rewrite decide_True by reflexivity. cbn [is_prefix].
    rewrite decide_True by reflexivity. lia.
  - change ((x :: a) ++ c :: rest) with (x :: (a ++ c :: rest)).
    cbn [rfind_from length]. rewrite IH by lia.
    rewrite decide_False by lia. lia.
Qed.

(** [_start] in JupyterLab.  When the URL of the window is
    [origin:port/lab], the base URL is [origin], the host is [origin]
    without its first seven characters, the terrain server is started on
    port 8080 and the layer is given its URL and the decoder of the
    packing; the surface server is started on port 8081 only for an
    object with a colormap, whose texture is then the URL of that
    server, and otherwise the texture is the surface URL [plot] was
    given. *)
Theorem start_in_lab (s : TerrainMap) (origin port : list ascii) :
  window_url s = origin ++ ":"%char :: port ++ chars "/lab" ->
  ~ In ":"%char port ->
  factor s <> 0 ->
  (_start s).1 = inr tt
  /\ base_url (_start s).2 = Some origin
  /\ host (_start s).2 = Some (drop 7 origin)
  /\ trace (_start s).2
     = trace s ++ StartServer 8080 TerrainHandler
         :: match colormap s with
            | Some _ => [StartServer 8081 SurfaceHandler]
            | None => []
            end
  /\ l (_start s).2
     = mkLayer (Some (elevation_decoder (factor s) (offset s)))
               (Some (origin ++ chars ":8080" ++ tile_path))
               match colormap s with
               | Some _ => Some (origin ++ chars ":8081" ++ tile_path)
               | None => surface_url s
               end.
Proof.
  intros Hurl Hport Hfactor.
  assert (Hurl' : window_url s = (origin ++ ":"%char :: port) ++ chars "/lab")
    by (rewrite Hurl, <- app_assoc; reflexivity).
  assert (Hslice : py_slice_to (window_url s) (-4) = origin ++ ":"%char :: port).
  { rewrite Hurl'. apply (py_slice_to_suffix _ (chars "/lab")). discriminate. }
  assert (Hrfind : rfind (origin ++ ":"%char :: port) (chars ":")
                   = Z.of_nat (length origin)).
  { unfold rfind. change (chars ":") with [":"%char].
    rewrite rfind_char_last by (assumption || lia). lia. }
  assert (Hcontains : contains (origin ++ ":"%char :: port) (chars ":") = true).
  { unfold contains. rewrite Hrfind. apply bool_decide_eq_true_2. lia. }
  assert (Hrun : exists s',
             _start_body s = (inr tt, s')
             /\ base_url s' = Some origin
             /\ host s' = Some (drop 7 origin)
             /\ trace s'
                = trace s ++ StartServer 8080 TerrainHandler
                    :: match colormap s with
                       | Some _ => [StartServer 8081 SurfaceHandler]
                       | None => []
                       end
             /\ l s'
                = mkLayer (Some (elevation_decoder (factor s) (offset s)))
                          (Some (origin ++ chars ":8080" ++ tile_path))
                          match colormap s with
                          | Some _ => Some (origin ++ chars ":8081" ++ tile_path)
                          | None => surface_url s
                          end).
  { destruct (colormap s) as [cm|] eqn:Hcm; eexists;
      (split;
       [ unfold _start_body, bindM at 1, getM at 1;
         rewrite Hurl' at 1; rewrite endswith_app;
         unfold bindM at 1, modifyM at 1; rewrite Hslice;
         unfold bindM at 1, get_base_url at 1, bindM at 1, getM at 1, liftR at 1;
         cbn [base_url set_base_url from_option];
         rewrite Hcontains;
         unfold bindM at 1, modifyM at 1; rewrite Hrfind, py_slice_to_prefix;
         unfold bindM at 1, get_base_url at 1, bindM at 1, getM at 1, liftR at 1;
         cbn [base_url set_base_url from_option];
         cbv [bindM modifyM start_server getM get_base_url liftR retM];
         cbn [colormap factor offset surface_url base_url set_host set_base_url
              log_event from_option];
         rewrite (decide_False _ _ Hfactor), Hcm; reflexivity
       | cbn [base_url host trace l set_l set_host set_base_url log_event];
         rewrite <- ?app_assoc; repeat split ]). }
  destruct Hrun as (s' & Hbody & Hb & Hh & Ht & Hl).
  assert (Hstart : _start s = (inr tt, s')).
  { unfold _start, with_debug_output_unit. now rewrite Hbody. }
  rewrite Hstart. cbn [fst snd].
  repeat split; assumption.
Qed.

Lemma start_in_lab_witness :
  (_start (set_window_url (chars "http://localhost:8888/lab") example_surface_map)).1
  = inr tt
  /\ host (_start (set_window_url (chars "http://localhost:8888/lab")
                                  example_surface_map)).2
     = Some (chars "localhost").
Proof.
  destruct (start_in_lab
              (set_window_url (chars "http://localhost:8888/lab") example_surface_map)
              (chars "http://localhost") (chars "8888"))
    as (Hok & _ & Hhost & _).
  - reflexivity.
  - cbn. intros H. repeat (destruct H as [H|H]; [discriminate H|]). exact H.
  - discriminate.
  - split; assumption.
Defined.

(** [_start] on a window URL it does not recognise.  When the URL
    neither ends in [/lab] nor contains [/notebooks/] or [/voila/], and no
    base URL was set before, the block of [_start] raises
    [AttributeError] for [base_url] before it starts a server: [_start]
    raises it, or returns where its context manager swallows it, and in
    both cases leaves the object as it is, with no server started and
    the layer not set up. *)
Theorem start_unknown_window (s : TerrainMap) :
  endswith (window_url s) (chars "/lab") = false ->
  contains (window_url s) (chars "/notebooks/") = false ->
  contains (window_url s) (chars "/voila/") = false ->
  base_url s = None ->
  _start_body s = (inl (AttributeError "base_url"), s)
  /\ _start s
     = (if suppresses (debug_output s) (AttributeError "base_url")
        then inr tt else inl (AttributeError "base_url"), s).
Proof.
  intros Hlab Hnb Hvoila Hbase.
  assert (Hbody : _start_body s = (inl (AttributeError "base_url"), s)).
  { unfold _start_body, bindM at 1, getM at 1. rewrite Hlab, Hnb, Hvoila.
    unfold bindM at 1, retM at 1.
    unfold bindM at 1, get_base_url at 1, bindM at 1, getM at 1, liftR at 1.
    now rewrite Hbase. }
  split; [exact Hbody|].
  unfold _start, with_debug_output_unit. rewrite Hbody. reflexivity.
Qed.

(** The object as [plot] leaves it in plain Python, whose window URL is
    still empty. *)
Lemma start_unknown_window_witness :
  _start example_map = (inl (AttributeError "base_url"), example_map).
Proof.
  apply (start_unknown_window example_map); reflexivity.
Defined.

(** ** The reprojection grid of a tile *)

Section PipelineProperties.
Context {libs : Libs}.

Lemma coarsen_returns (array : DataArray) (tile_width : Z) :
  tile_width <> 0 -> exists out, coarsen array tile_width = inr out.
Proof.
  intros Htw. unfold coarsen. destruct (da_shape array) as [ny nx].
  unfold py_floordiv. rewrite !decide_False by lia. cbn [bindR].
  destruct (xr_coarsen_mean _ array); eauto.
Qed.

(** What [get_tile] asks of the reprojection.  For a tile whose bounds
    the library gives and a selection that succeeds, the pipeline calls
    the reprojection once, for the target ["EPSG:3857"], the shape
    [tile_width x tile_width] and bilinear resampling, with an
    unrotated transform that sends the pixel position (0, 0) to the top
    left corner of the tile's projected bounds and the position
    [(tile_width, tile_width)] to their bottom right corner; the selection
    reaches one grid spacing beyond the geographic bounds on every
    side. *)
Theorem tile_pipeline_grid (s : TerrainMap) (x y z : Z)
    (bounds : LngLatBbox) (xy_bounds : Bbox) (da_tile : DataArray) :
  tile_width s <> 0 ->
  mercantile_bounds (mkTile x y z) = inr bounds ->
  mercantile_xy_bounds (mkTile x y z) = inr xy_bounds ->
  xr_sel (da s)
         ((north bounds + dy s)%Q, (south bounds - dy s)%Q)
         ((west bounds - dx s)%Q, (east bounds + dx s)%Q) = inr da_tile ->
  exists source transform,
    coarsen da_tile (tile_width s) = inr source
    /\ tile_pipeline s x y z
       = (ok destination <-
            rio_reproject source "EPSG:3857" transform
                          (tile_width s, tile_width s) bilinear;
          inr (da_values destination))
    /\ af_b transform = 0%Q /\ af_d transform = 0%Q
    /\ fst (affine_apply transform 0 0) == bb_left xy_bounds
    /\ snd (affine_apply transform 0 0) == bb_top xy_bounds
    /\ fst (affine_apply transform (inject_Z (tile_width s))
                         (inject_Z (tile_width s))) == bb_right xy_bounds
    /\ snd (affine_apply transform (inject_Z (tile_width s))
                         (inject_Z (tile_width s))) == bb_bottom xy_bounds.
Proof.
  intros Htw Hb Hxy Hsel.
  destruct (coarsen_returns da_tile (tile_width s) Htw) as (source & Hc).
  exists source. eexists. split; [exact Hc|]. split.
  - unfold tile_pipeline. rewrite Hb, Hxy. cbn [bindR].
    unfold py_truediv. rewrite !decide_False by exact Htw. cbn [bindR].
    rewrite Hsel. cbn [bindR]. rewrite Hc. cbn [bindR].
    unfold reproject. reflexivity.
  - assert (HtwQ : ~ (inject_Z (tile_width s) == 0)%Q).
    { intros E. apply Htw. unfold Qeq, inject_Z in E. cbn in E. lia. }
    unfold affine_apply. cbn [af_a af_b af_c af_d af_e af_f fst snd].
    repeat split; try reflexivity; field; exact HtwQ.
Qed.

(** [get_tile] raises only what the pipeline raises: the lookup it ends
    with never fails, and an address that is cached never raises. *)
Theorem get_tile_raises_only_pipeline (s : TerrainMap) (x y z : Z) (e : exn) :
  (get_tile x y z s).1 = inl e ->
  tiles s !! (x, y, z) = None /\ tile_pipeline s x y z = inl e.
Proof.
  destruct (tiles s !! (x, y, z)) as [d|] eqn:E.
  - rewrite (get_tile_hit _ _ _ _ _ E). discriminate.
  - rewrite (get_tile_miss _ _ _ _ E).
    destruct (tile_pipeline s x y z) as [e'|d]; cbn [fst leave_block];
      [|discriminate].
    destruct (suppresses _ e'); [discriminate|].
    intros [= ->]. split; reflexivity.
Qed.
End PipelineProperties.

Lemma tile_pipeline_grid_witness :
  exists source transform,
    @coarsen example_libs (da example_map) 256 = inr source
    /\ @tile_pipeline example_libs example_map 0 0 0
       = (ok destination <-
            @rio_reproject example_libs source "EPSG:3857" transform
                           (256, 256) bilinear;
          inr (da_values destination))
    /\ af_b transform = 0%Q /\ af_d transform = 0%Q
    /\ fst (affine_apply transform 0 0) == -20037508
    /\ snd (affine_apply transform 0 0) == 20037508
    /\ fst (affine_apply transform (inject_Z 256) (inject_Z 256)) == 20037508
    /\ snd (affine_apply transform (inject_Z 256) (inject_Z 256)) == -20037508.
Proof.
  apply (@tile_pipeline_grid example_libs example_map 0 0 0
           (mkLngLatBbox (-180) (-85) 180 85)
           (mkBbox (-20037508) (-20037508) 20037508 20037508)
           (da example_map)).
  - discriminate.
  - reflexivity.
  - reflexivity.
  - reflexivity.
Defined.

Lemma get_tile_raises_only_pipeline_witness :
  tiles example_map !! (0, 0, 0) = None
  /\ @tile_pipeline failing_libs example_map 0 0 0 = inl KeyError.
Proof.
  apply (@get_tile_raises_only_pipeline failing_libs example_map 0 0 0 KeyError).
  reflexivity.
Defined.

(** ** The normalization of the surface encoder *)

(** With [vmin < vmax], a value between them is normalized into
    [0, 1], [vmin] itself to 0 and [vmax] to 1, and the normalization
    keeps the order of values. *)
Theorem normalize_unit_interval (lo hi : Q) (tile : Raster) :
  (lo < hi)%Q ->
  Forall (Forall (fun v => exists q, v = Fin q /\ (lo <= q <= hi)%Q)) tile ->
  Forall (Forall (fun v => exists r, v = Fin r /\ (0 <= r <= 1)%Q))
         (normalize (Fin lo) (Fin hi) tile)
  /\ (forall r, fdiv (fsub (Fin lo) (Fin lo)) (fsub (Fin hi) (Fin lo)) = Fin r ->
                (r == 0)%Q)
  /\ (forall r, fdiv (fsub (Fin hi) (Fin lo)) (fsub (Fin hi) (Fin lo)) = Fin r ->
                (r == 1)%Q)
  /\ (forall p q r1 r2,
        (p <= q)%Q ->
        fdiv (fsub (Fin p) (Fin lo)) (fsub (Fin hi) (Fin lo)) = Fin r1 ->
        fdiv (fsub (Fin q) (Fin lo)) (fsub (Fin hi) (Fin lo)) = Fin r2 ->
        (r1 <= r2)%Q).
Proof.
  intros Hlt Htile.
  assert (Hnz : Qeq_bool (hi + - lo) 0 = false).
  { destruct (Qeq_bool (hi + - lo) 0) eqn:E; [|reflexivity].
    apply Qeq_bool_iff in E. lra. }
  assert (Hpix : forall q, fdiv (fsub (Fin q) (Fin lo)) (fsub (Fin hi) (Fin lo))
                           = Fin ((q + - lo) / (hi + - lo))).
  { intros q. unfold fsub. cbn [fneg fadd fdiv]. now rewrite Hnz. }
  assert (Hpos : (0 < hi + - lo)%Q) by lra.
  repeat split.
  - unfold normalize, arr_map. apply Forall_map.
    eapply Forall_impl; [exact Htile|]. intros row Hrow. cbn beta.
    apply Forall_map. eapply Forall_impl; [exact Hrow|].
    intros v (q & -> & Hq). cbn beta. rewrite Hpix. eexists. split; [reflexivity|].
    split.
    + apply Qle_shift_div_l; [exact Hpos | lra].
    + apply Qle_shift_div_r; [exact Hpos | lra].
  - intros r. rewrite Hpix. intros [= <-]. field. lra.
  - intros r. rewrite Hpix. intros [= <-]. field. lra.
  - intros p q r1 r2 Hpq. rewrite !Hpix. intros [= <-] [= <-].
    apply Qmult_le_compat_r; [lra|].
    apply Qlt_le_weak, Qinv_lt_0_compat, Hpos.
Qed.

Lemma normalize_unit_interval_witness :
  Forall (Forall (fun v => exists r, v = Fin r /\ (0 <= r <= 1)%Q))
         (normalize (Fin 0) (Fin 1000) (fill_raster 2 2 (Fin 500))).
Proof.
  apply (normalize_unit_interval 0 1000 (fill_raster 2 2 (Fin 500))).
  - reflexivity.
  - repeat constructor; exists 500%Q; (split; [reflexivity|]); split; discriminate.
Defined.
